(** * apex-legend-detector: the detection pipeline and the task lifecycle

    A shallow embedding of [detector.py], [tasks.py] and [worker.py].

    - Python exceptions are an error monad [res]; [try/except Exception]
      is a match on it.
    - A numpy image is its shape together with a pixel accessor; slicing
      follows Python's rules for negative and out-of-range bounds.
    - The OpenCV primitives (decode, resize, colour conversion, template
      matching) are an interface, [Cv2]: they are outside the repository.
    - Python floats are rationals.  Where the code computes a size in
      pixels ([resize_to_1080p]) every division and multiplication goes
      through a rounding function [rnd] of which only the binary64
      properties are assumed; similarity scores are taken as finite and
      exact, and their comparisons are comparisons of rationals.
    - The network and the Redis store are explicit state. *)

From Stdlib Require Import ZArith QArith Qround Qabs Lia Lqa String Ascii List Bool.
From stdpp Require Import base option list strings gmap.

Local Open Scope Z_scope.

(** ** Python values shared by the three files *)

Module Py.

(** The exceptions the modelled code can meet. *)
Inductive exn : Type :=
| ValueError (msg : string)
| ZeroDivisionError (msg : string)
| ConnectionError (msg : string)
| ResponseError (msg : string)
| CvError (msg : string)
| IndexError (msg : string)
| KeyError (msg : string).

(** [str(e)] *)
Definition str (e : exn) : string :=
  match e with
  | ValueError m | ZeroDivisionError m | ConnectionError m
  | ResponseError m | CvError m | IndexError m | KeyError m => m
  end.

(** A computation that returns or raises. *)
Inductive res (A : Type) : Type :=
| Ok (a : A)
| Raise (e : exn).
Arguments Ok {A} a.
Arguments Raise {A} e.

Definition bind {A B : Type} (m : res A) (k : A -> res B) : res B :=
  match m with
  | Ok a => k a
  | Raise e => Raise e
  end.

Definition raises {A : Type} (m : res A) : Prop :=
  match m with Ok _ => False | Raise _ => True end.

Definition returns {A : Type} (m : res A) : Prop :=
  match m with Ok _ => True | Raise _ => False end.

(** [s.split(sep)] for a one-character separator: every occurrence of
    [sep] ends a piece, so the result is never empty. *)
Fixpoint split (sep : ascii) (s : string) : list string :=
  match s with
  | EmptyString => [EmptyString]
  | String c s' =>
      if Ascii.eqb c sep then EmptyString :: split sep s'
      else match split sep s' with
           | p :: ps => String c p :: ps
           | [] => [String c EmptyString]
           end
  end.

(** Whitespace that [int()] strips (ASCII part). *)
Definition is_space (c : ascii) : bool :=
  let n := nat_of_ascii c in
  ((9 <=? n) && (n <=? 13) || (28 <=? n) && (n <=? 32))%nat.

Fixpoint lstrip (s : string) : string :=
  match s with
  | String c s' => if is_space c then lstrip s' else s
  | EmptyString => EmptyString
  end.

(** Drops trailing whitespace: a suffix made of whitespace only becomes
    the empty string. *)
Fixpoint rstrip (s : string) : string :=
  match s with
  | EmptyString => EmptyString
  | String c s' =>
      match rstrip s' with
      | EmptyString => if is_space c then EmptyString else String c EmptyString
      | r => String c r
      end
  end.

Definition strip (s : string) : string := rstrip (lstrip s).

Definition digit_of (c : ascii) : option Z :=
  let n := nat_of_ascii c in
  if ((48 <=? n) && (n <=? 57))%nat then Some (Z.of_nat n - 48) else None.

(** Decimal digits with single underscores between digits.  [acc] is the
    value read so far, [after_digit] tells whether the previous character
    was a digit (an underscore is legal only then, and not at the end). *)
Fixpoint digits (acc : Z) (after_digit : bool) (s : string) : option Z :=
  match s with
  | EmptyString => if after_digit then Some acc else None
  | String c s' =>
      match digit_of c with
      | Some d => digits (10 * acc + d) true s'
      | None =>
          if Ascii.eqb c "_"%char && after_digit then digits acc false s'
          else None
      end
  end.

(** [int(s)] in base 10: [None] stands for [ValueError]. *)
Definition int (s : string) : option Z :=
  match strip s with
  | String "-" s' => Z.opp <$> digits 0 false s'
  | String "+" s' => digits 0 false s'
  | s' => digits 0 false s'
  end.

(** [int(x)] on a float: truncation toward zero. *)
Definition trunc (x : Q) : Z := Z.quot (Qnum x) (Zpos (Qden x)).

(** Start and length of [a:b] on an axis of length [n] (step 1): a
    negative bound counts from the end, then both are clamped to
    [0..n]. *)
Definition slice_index (n i : Z) : Z :=
  if i <? 0 then Z.max 0 (i + n) else Z.min i n.

Definition slice_start (n a : Z) : Z := slice_index n a.

Definition slice_len (n a b : Z) : Z :=
  Z.max 0 (slice_index n b - slice_index n a).

End Py.

Export Py(exn(..), res(..)).

Declare Scope py_scope.
Delimit Scope py_scope with py.
Notation "x <- m ;; k" := (Py.bind m (fun x => k))
  (at level 100, m at next level, right associativity) : py_scope.
Local Open Scope py_scope.

(** ** detector.py *)

Module Detector.

(** A numpy array of two axes (an axis of channels is inside [A]):
    [shape0] rows, [shape1] columns, [px i j] the entry at row [i],
    column [j]. *)
Record ndarray (A : Type) : Type :=
  { shape0 : Z; shape1 : Z; px : Z -> Z -> A }.
Arguments shape0 {A} _.
Arguments shape1 {A} _.
Arguments px {A} _ _ _.

(** A BGR pixel. *)
Definition pixel : Type := (Z * Z * Z)%type.
Definition image : Type := ndarray pixel.
Definition gray : Type := ndarray Z.

(** [a.shape != b.shape] *)
Definition shape_neqb {A B : Type} (a : ndarray A) (b : ndarray B) : bool :=
  negb ((shape0 a =? shape0 b) && (shape1 a =? shape1 b)).

(** [a[r0:r1, c0:c1]] *)
Definition getslice {A : Type} (a : ndarray A) (r0 r1 c0 c1 : Z) : ndarray A :=
  {| shape0 := Py.slice_len (shape0 a) r0 r1;
     shape1 := Py.slice_len (shape1 a) c0 c1;
     px := fun i j => px a (Py.slice_start (shape0 a) r0 + i)
                            (Py.slice_start (shape1 a) c0 + j) |}.

(** [a[0][0]] *)
Definition getitem00 {A : Type} (a : ndarray A) : res A :=
  if (0 <? shape0 a) && (0 <? shape1 a) then Ok (px a 0 0)
  else Raise (IndexError "index 0 is out of bounds for axis 0 with size 0").

Inductive tm_method : Type :=
| TM_CCOEFF_NORMED
| TM_CCORR_NORMED
| TM_SQDIFF_NORMED.

Definition is_sqdiff (m : tm_method) : bool :=
  match m with TM_SQDIFF_NORMED => true | _ => false end.

(** The OpenCV functions the detector calls.  [imdecode] and [imread]
    answer [None] for data that is no image; the others return or raise
    [cv2.error].  [resize] takes the size as (width, height). *)
Class Cv2 : Type :=
  { imdecode : list Byte.byte -> option image;
    imread : string -> option image;
    resize : image -> Z * Z -> res image;
    cvtColor_BGR2GRAY : image -> res gray;
    matchTemplate : gray -> gray -> tm_method -> res (ndarray Q) }.

(** What the detector relies on: a successful [resize] returns an image
    of the requested size. *)
Class Cv2Laws (cv : Cv2) : Prop :=
  { resize_shape : forall img w h out,
      resize img (w, h) = Ok out -> shape0 out = h /\ shape1 out = w }.

(** Python float arithmetic: the exact result, rounded by [rnd].
    [float_of_string] is [float(s)], [None] for [ValueError]. *)
Class Float64 : Type :=
  { rnd : Q -> Q;
    float_of_string : string -> option Q }.

(** What binary64 rounding to nearest guarantees on the range the
    detector works in: it is monotone, compatible with equality of
    rationals, exact on integers below 2^53, and has relative error at
    most 2^-53 between 2^-64 and 2^64. *)
Class Float64Laws (F : Float64) : Prop :=
  { rnd_proper : forall x y : Q, (x == y)%Q -> (rnd x == rnd y)%Q;
    rnd_mono : forall x y : Q, (x <= y)%Q -> (rnd x <= rnd y)%Q;
    rnd_int : forall n : Z,
        Z.abs n <= 2 ^ 53 -> (rnd (inject_Z n) == inject_Z n)%Q;
    rnd_rel : forall x : Q,
        (1 # (2 ^ 64) <= x)%Q -> (x <= inject_Z (2 ^ 64))%Q ->
        (Qabs (rnd x - x) <= (1 # (2 ^ 53)) * x)%Q }.

(** [a < b] on floats *)
Definition Qltb (a b : Q) : bool := negb (Qle_bool b a).

(** [min(a, b)]: the first argument unless the second is smaller. *)
Definition py_min (a b : Q) : Q := if Qltb b a then b else a.

Section Arith.
Context {F : Float64}.

(** [a / b] on ints *)
Definition truediv (a b : Z) : res Q :=
  if b =? 0 then Raise (ZeroDivisionError "division by zero")
  else Ok (rnd (inject_Z a / inject_Z b)%Q).

(** [n * x] for an int [n] and a float [x] *)
Definition mul_int_float (n : Z) (x : Q) : Q :=
  rnd (rnd (inject_Z n) * x)%Q.
End Arith.

(** A dict kept in insertion order: [d[k] = v]. *)
Fixpoint dict_set {V : Type} (k : string) (v : V) (d : list (string * V))
  : list (string * V) :=
  match d with
  | [] => [(k, v)]
  | (k', v') :: d' =>
      if String.eqb k' k then (k, v) :: d' else (k', v') :: dict_set k v d'
  end.

(** The result dict of one screenshot; [screenshot_index] is the key
    that [process_multiple_screenshots] adds to the winner. *)
Record match_dict : Type :=
  { character_name : string;
    confidence : Q;
    url : string;
    screenshot_index : option Z }.

Record ApexDetector : Type :=
  { portrait_region : list Z;
    min_confidence : Q;
    reference_portraits : list (string * image) }.


(** [tuple(map(int, region_str.split(',')))] *)
Fixpoint map_int (parts : list string) : res (list Z) :=
  match parts with
  | [] => Ok []
  | p :: ps =>
      match Py.int p with
      | None => Raise (ValueError ("invalid literal for int() with base 10: " ++ p))
      | Some n => ns <- map_int ps ;; Ok (n :: ns)
      end
  end.

Definition _parse_region (region_str : string) : res (list Z) :=
  map_int (Py.split "," region_str).

(** The portraits directory: [None] when it does not exist, else the
    stems of its [*.png] files in the order [glob] yields them. *)
Definition portraits_fs : Type := option (list string).

Definition portrait_path (stem : string) : string :=
  "/app/portraits/" ++ stem ++ ".png".

Section WithCv2.
Context {cv : Cv2} {F : Float64}.

Fixpoint load_files (stems : list string) (acc : list (string * image))
  : list (string * image) :=
  match stems with
  | [] => acc
  | character_name :: rest =>
      match imread (portrait_path character_name) with
      | Some portrait_img => load_files rest (dict_set character_name portrait_img acc)
      | None => load_files rest acc
      end
  end.

(** Returns the loaded portraits and the directory afterwards (a
    missing directory is created empty). *)
Definition load_reference_portraits (fs : portraits_fs)
  : list (string * image) * portraits_fs :=
  match fs with
  | None => ([], Some [])
  | Some stems => (load_files stems [], fs)
  end.


Definition resize_to_1080p (img : image) : res image :=
  let target_height := 1080 in
  let target_width := 1920 in
  let height := shape0 img in
  let width := shape1 img in
  if (height <=? target_height) && (width <=? target_width) then Ok img
  else
    scale_h <- truediv target_height height ;;
    scale_w <- truediv target_width width ;;
    let scale := py_min scale_h scale_w in
    let new_width := Py.trunc (mul_int_float width scale) in
    let new_height := Py.trunc (mul_int_float height scale) in
    resize img (new_width, new_height).

Definition extract_portrait_from_image (self : ApexDetector) (img : image)
  : res image :=
  match portrait_region self with
  | [x; y; w; h] =>
      if (shape0 img <? y + h) || (shape1 img <? x + w)
      then Raise (ValueError "Image dimensions too small for portrait extraction")
      else Ok (getslice img y (y + h) x (x + w))
  | _ => Raise (ValueError "wrong number of values to unpack (expected 4)")
  end.

(** [np.mean(scores)], the sum over the count, without the rounding of the
    float additions and of the division. *)
Definition np_mean (scores : list Q) : Q :=
  (fold_left Qplus scores 0 / inject_Z (Z.of_nat (length scores)))%Q.

(** The loop over [methods], [scores] being the list built so far. *)
Fixpoint score_methods (gray1 gray2 : gray) (methods : list tm_method)
  (scores : list Q) : res (list Q) :=
  match methods with
  | [] => Ok scores
  | method :: rest =>
      result <- matchTemplate gray1 gray2 method ;;
      r00 <- getitem00 result ;;
      let score := if is_sqdiff method then (1 - r00)%Q else r00 in
      score_methods gray1 gray2 rest (scores ++ [score])
  end.

Definition calculate_similarity (portrait1 portrait2 : image) : res Q :=
  portrait2 <- (if shape_neqb portrait1 portrait2
                then resize portrait2 (shape1 portrait1, shape0 portrait1)
                else Ok portrait2) ;;
  gray1 <- cvtColor_BGR2GRAY portrait1 ;;
  gray2 <- cvtColor_BGR2GRAY portrait2 ;;
  let methods := [TM_CCOEFF_NORMED; TM_CCORR_NORMED; TM_SQDIFF_NORMED] in
  scores <- score_methods gray1 gray2 methods [] ;;
  Ok (np_mean scores).

(** *** The network

    [respond n u] is what the [n]-th request of the session gets when
    it asks for [u]; [requests] lists the requests made so far. *)
Inductive http_outcome : Type :=
| GetTimeout
| GetError (e : exn)
| Response (status : Z) (body : list Byte.byte).

Record network : Type :=
  { respond : nat -> string -> http_outcome;
    requests : list string }.

(** [session.get(url, timeout=...)] followed by [response.read()] *)
Definition session_get (u : string) (net : network) : http_outcome * network :=
  (respond net (length (requests net)) u,
   {| respond := respond net; requests := requests net ++ [u] |}).

Definition download_image (u : string) (net : network) : option image * network :=
  let '(outcome, net) := session_get u net in
  (match outcome with
   | Response status body =>
       if negb (status =? 200) then None else imdecode body
   | GetTimeout => None
   | GetError _ => None
   end, net).

(** The loop over [self.reference_portraits.items()]. *)
Fixpoint scan_references (portrait : image) (u : string)
  (refs : list (string * image))
  (best_match : option match_dict) (highest_confidence : Q)
  : res (option match_dict * Q) :=
  match refs with
  | [] => Ok (best_match, highest_confidence)
  | (char_name, ref_portrait) :: rest =>
      conf <- calculate_similarity portrait ref_portrait ;;
      if Qltb highest_confidence conf
      then scan_references portrait u rest
             (Some {| character_name := char_name;
                      confidence := conf;
                      url := u;
                      screenshot_index := None |}) conf
      else scan_references portrait u rest best_match highest_confidence
  end.

(** The [try] block of [process_screenshot_url] once the image is
    there. *)
Definition detect_in_image (self : ApexDetector) (u : string) (img : image)
  : res (option match_dict) :=
  img <- resize_to_1080p img ;;
  portrait <- extract_portrait_from_image self img ;;
  r <- scan_references portrait u (reference_portraits self) None 0%Q ;;
  let '(best_match, highest_confidence) := r in
  Ok (if Qle_bool (min_confidence self) highest_confidence
      then best_match else None).

Definition process_screenshot_url (self : ApexDetector) (u : string)
  (net : network) : option match_dict * network :=
  let '(img, net) := download_image u net in
  (match img with
   | None => None
   | Some img =>
       match detect_in_image self u img with
       | Ok r => r
       | Raise _ => None
       end
   end, net).

(** An entry of [asyncio.gather(..., return_exceptions=True)]. *)
Inductive gathered : Type :=
| Exc (e : exn)
| Val (r : option match_dict).

(** The tasks of [gather]: each issues its request when it starts, in
    the order of [screenshot_urls]; they share nothing else. *)
Fixpoint gather (self : ApexDetector) (screenshot_urls : list string)
  (net : network) : list gathered * network :=
  match screenshot_urls with
  | [] => ([], net)
  | u :: rest =>
      let '(r, net) := process_screenshot_url self u net in
      let '(rs, net) := gather self rest net in
      (Val r :: rs, net)
  end.

(** The loop over [enumerate(results)], from index [idx] on. *)
Fixpoint select_best (results : list gathered) (idx : Z)
  (best_overall : option match_dict) (highest_confidence : Q)
  (best_index : Z) : option match_dict * Z :=
  match results with
  | [] => (best_overall, best_index)
  | Exc _ :: rest =>
      select_best rest (idx + 1) best_overall highest_confidence best_index
  | Val None :: rest =>
      select_best rest (idx + 1) best_overall highest_confidence best_index
  | Val (Some result) :: rest =>
      if Qltb highest_confidence (confidence result)
      then select_best rest (idx + 1) (Some result) (confidence result) idx
      else select_best rest (idx + 1) best_overall highest_confidence best_index
  end.

Definition set_screenshot_index (m : match_dict) (i : Z) : match_dict :=
  {| character_name := character_name m;
     confidence := confidence m;
     url := url m;
     screenshot_index := Some i |}.

Definition process_multiple_screenshots (self : ApexDetector)
  (screenshot_urls : list string) (net : network)
  : option match_dict * network :=
  let '(results, net) := gather self screenshot_urls net in
  let '(best_overall, best_index) := select_best results 0 None 0%Q (-1) in
  (match best_overall with
   | Some b => Some (set_screenshot_index b best_index)
   | None => None
   end, net).

(** [asyncio.run(self.process_multiple_screenshots(screenshot_urls))] *)
Definition process_screenshots (self : ApexDetector)
  (screenshot_urls : list string) (net : network)
  : option match_dict * network :=
  process_multiple_screenshots self screenshot_urls net.

End WithCv2.

End Detector.

(** ** The persisted records and the Redis store *)

Module Store.

(** An element of [Detections], also the shape of [BestOverall]. *)
Record Detection : Type :=
  { CharacterName : string;
    Confidence : Q;
    ScreenshotIndex : Z;
    ScreenshotUrl : string }.

(** The dict that is serialised under [result:<task_id>]. *)
Record DetectionResult : Type :=
  { TaskId : string;
    VideoId : string;
    Status : string;
    Detections : list Detection;
    BestOverall : option Detection;
    UniqueCharacters : list string;
    TotalScreenshots : Z;
    SuccessfulDetections : Z;
    CompletedAt : string;
    Error : option string }.

(** A Redis value: a serialised record with its time to live in
    seconds, or a counter. *)
Inductive value : Type :=
| Json (ttl : Z) (r : DetectionResult)
| Int (n : Z).

(** The store: its keys, and for each forthcoming call whether the
    server cannot be reached ([true]); past the end of [faults] it can. *)
Record store : Type :=
  { kv : gmap string value;
    faults : list bool }.

Definition call {A : Type} (op : gmap string value -> res A * gmap string value)
  (s : store) : res A * store :=
  match faults s with
  | true :: fs =>
      (Raise (ConnectionError "Error connecting to redis"),
       {| kv := kv s; faults := fs |})
  | _ =>
      let '(r, m) := op (kv s) in
      (r, {| kv := m; faults := tail (faults s) |})
  end.

(** [redis_client.setex(key, ttl, value)] *)
Definition setex (key : string) (ttl : Z) (r : DetectionResult)
  : store -> res unit * store :=
  call (fun m => (Ok tt, <[key := Json ttl r]> m)).

(** [redis_client.incr(key)]: a missing key counts as 0; a value that is
    no integer, or the largest 64-bit one, is an error. *)
Definition incr (key : string) : store -> res Z * store :=
  call (fun m =>
          match m !! key with
          | None => (Ok 1, <[key := Int 1]> m)
          | Some (Int n) =>
              if n =? 2 ^ 63 - 1
              then (Raise (ResponseError "increment or decrement would overflow"), m)
              else (Ok (n + 1), <[key := Int (n + 1)]> m)
          | Some (Json _ _) =>
              (Raise (ResponseError "value is not an integer or out of range"), m)
          end).

(** [datetime.now(timezone.utc)], through the two renderings the code
    uses.  The instants read during one run are taken to be the same. *)
Record datetime : Type :=
  { isoformat : string;
    strftime_Ymd : string }.

(** What a task acts on. *)
Record world : Type :=
  { net : Detector.network;
    redis : store }.

(** A task step: returns or raises, and leaves a world behind either
    way. *)
Definition io (A : Type) : Type := world -> res A * world.

Definition ret {A : Type} (a : A) : io A := fun w => (Ok a, w).

Definition raise {A : Type} (e : exn) : io A := fun w => (Raise e, w).

Definition iobind {A B : Type} (m : io A) (k : A -> io B) : io B :=
  fun w =>
    match m w with
    | (Ok a, w') => k a w'
    | (Raise e, w') => (Raise e, w')
    end.

(** [try: m except Exception as e: h e] *)
Definition try_except {A : Type} (m : io A) (h : exn -> io A) : io A :=
  fun w =>
    match m w with
    | (Ok a, w') => (Ok a, w')
    | (Raise e, w') => h e w'
    end.

Definition on_redis {A : Type} (f : store -> res A * store) : io A :=
  fun w =>
    let '(r, s) := f (redis w) in
    (r, {| net := net w; redis := s |}).

Definition on_net {A : Type} (f : Detector.network -> A * Detector.network) : io A :=
  fun w =>
    let '(a, n) := f (net w) in
    (Ok a, {| net := n; redis := redis w |}).

(** [d[key]] for a key that may be absent *)
Definition getitem {A : Type} (key : string) (v : option A) : io A :=
  match v with
  | Some a => ret a
  | None => raise (KeyError key)
  end.

End Store.

Declare Scope io_scope.
Delimit Scope io_scope with io.
Notation "x <- m ;; k" := (Store.iobind m (fun x => k))
  (at level 100, m at next level, right associativity) : io_scope.

(** ** tasks.py: the Celery task *)

Module Tasks.
Import Detector Store.
Local Open Scope io_scope.

Section WithDetector.
Context {cv : Cv2} {F : Float64}.
(** The module-level [detector = ApexDetector()]. *)
Variable detector : ApexDetector.

Definition process_video_screenshots (task_id clip_id : string)
  (screenshot_urls : list string) (now : datetime) : io DetectionResult :=
  try_except
    (result <- on_net (process_screenshots detector screenshot_urls) ;;
     found <-
       match result with
       | Some result =>
           idx <- getitem "screenshot_index" (screenshot_index result) ;;
           let best_overall :=
             {| CharacterName := character_name result;
                Confidence := confidence result;
                ScreenshotIndex := idx;
                ScreenshotUrl := url result |} in
           ret ([best_overall], Some best_overall, [character_name result], 1)
       | None => ret ([], None, [], 0)
       end ;;
     let '(detections_list, best_overall, unique_characters,
           successful_detections) := found in
     let response :=
       {| TaskId := task_id;
          VideoId := clip_id;
          Status := "completed";
          Detections := detections_list;
          BestOverall := best_overall;
          UniqueCharacters := unique_characters;
          TotalScreenshots := Z.of_nat (length screenshot_urls);
          SuccessfulDetections := successful_detections;
          CompletedAt := isoformat now;
          Error := None |} in
     _ <- on_redis (setex ("result:" ++ task_id) 604800 response) ;;
     let today := strftime_Ymd now in
     _ <- on_redis (incr ("stats:completed:" ++ today)) ;;
     ret response)
    (fun e =>
       let error_result :=
         {| TaskId := task_id;
            VideoId := clip_id;
            Status := "failed";
            Detections := [];
            BestOverall := None;
            UniqueCharacters := [];
            TotalScreenshots := Z.of_nat (length screenshot_urls);
            SuccessfulDetections := 0;
            CompletedAt := isoformat now;
            Error := Some (Py.str e) |} in
       _ <- on_redis (setex ("result:" ++ task_id) 86400 error_result) ;;
       let today := strftime_Ymd now in
       _ <- on_redis (incr ("stats:failed:" ++ today)) ;;
       raise e).

End WithDetector.
End Tasks.

(** ** worker.py: the stand-alone worker *)

Module Worker.
Import Detector Store.
Local Open Scope io_scope.

(** The decoded queue entry. *)
Record task_data : Type :=
  { task_id : string;
    clip_id : string;
    screenshot_urls : list string }.

Section WithDetector.
Context {cv : Cv2} {F : Float64}.
Variable detector : ApexDetector.

Definition process_task (td : task_data) (now : datetime) : io DetectionResult :=
  let task_id := task_id td in
  let clip_id := clip_id td in
  let screenshot_urls := screenshot_urls td in
  try_except
    (result <- on_net (process_screenshots detector screenshot_urls) ;;
     found <-
       match result with
       | Some result =>
           idx <- getitem "screenshot_index" (screenshot_index result) ;;
           let best_overall :=
             {| CharacterName := character_name result;
                Confidence := confidence result;
                ScreenshotIndex := idx;
                ScreenshotUrl := url result |} in
           ret ([best_overall], Some best_overall, [character_name result], 1)
       | None => ret ([], None, [], 0)
       end ;;
     let '(detections_list, best_overall, unique_characters,
           successful_detections) := found in
     let response :=
       {| TaskId := task_id;
          VideoId := clip_id;
          Status := "completed";
          Detections := detections_list;
          BestOverall := best_overall;
          UniqueCharacters := unique_characters;
          TotalScreenshots := Z.of_nat (length screenshot_urls);
          SuccessfulDetections := successful_detections;
          CompletedAt := isoformat now;
          Error := None |} in
     _ <- on_redis (setex ("result:" ++ task_id) 604800 response) ;;
     let today := strftime_Ymd now in
     _ <- on_redis (incr ("stats:completed:" ++ today)) ;;
     ret response)
    (fun e =>
       let error_result :=
         {| TaskId := task_id;
            VideoId := clip_id;
            Status := "failed";
            Detections := [];
            BestOverall := None;
            UniqueCharacters := [];
            TotalScreenshots := Z.of_nat (length screenshot_urls);
            SuccessfulDetections := 0;
            CompletedAt := isoformat now;
            Error := Some (Py.str e) |} in
       _ <- on_redis (setex ("result:" ++ task_id) 86400 error_result) ;;
       let today := strftime_Ymd now in
       _ <- on_redis (incr ("stats:failed:" ++ today)) ;;
       ret error_result).

End WithDetector.
End Worker.

(** ** Concrete instances, used to run the definitions *)

Module Sample.
Import Detector Store.

(** An image of one colour. *)
Definition solid (h w c : Z) : image :=
  {| shape0 := h; shape1 := w; px := fun _ _ => (c, c, c) |}.

Definition byte_val (b : Byte.byte) : Z := Z.of_N (Byte.to_N b).

(** A stand-in for OpenCV: a three-byte body [h, w, c] decodes to the
    one-colour image of 16h rows and 16w columns, [resize] samples the
    nearest pixel and refuses an empty size, the grey level is the mean
    of the channels, and the template methods compare the top-left
    pixels, [d] being their distance: 1 - 2d/255, 1 - d/255 and d/255. *)
#[export] Instance cv : Cv2 :=
  {| imdecode := fun body =>
       match body with
       | [h; w; c] => Some (solid (16 * byte_val h) (16 * byte_val w) (byte_val c))
       | _ => None
       end;
     imread := fun path =>
       if String.eqb path "/app/portraits/broken.png" then None
       else Some (solid 66 77 (Z.of_nat (String.length path)));
     resize := fun img '(w, h) =>
       if (w <=? 0) || (h <=? 0) then Raise (CvError "resize: empty size")
       else Ok {| shape0 := h; shape1 := w;
                  px := fun i j => px img (i * shape0 img / h) (j * shape1 img / w) |};
     cvtColor_BGR2GRAY := fun img =>
       if (shape0 img <=? 0) || (shape1 img <=? 0)
       then Raise (CvError "cvtColor: empty image")
       else Ok {| shape0 := shape0 img; shape1 := shape1 img;
                  px := fun i j => let '(b, g, r) := px img i j in (b + g + r) / 3 |};
     matchTemplate := fun g1 g2 m =>
       let d := Z.abs (px g1 0 0 - px g2 0 0) in
       let v := match m with
                | TM_CCOEFF_NORMED => (1 - 2 * inject_Z d / 255)%Q
                | TM_CCORR_NORMED => (1 - inject_Z d / 255)%Q
                | TM_SQDIFF_NORMED => (inject_Z d / 255)%Q
                end in
       Ok {| shape0 := shape0 g1 - shape0 g2 + 1;
             shape1 := shape1 g1 - shape1 g2 + 1;
             px := fun _ _ => v |} |}.

(** Plain decimals [ddd] and [ddd.ddd]. *)
Definition decimal (s : string) : option Q :=
  match Py.split "." (Py.strip s) with
  | [a] => inject_Z <$> Py.int a
  | [a; b] =>
      match Py.int a, Py.digits 0 false b with
      | Some n, Some f =>
          Some (inject_Z n + inject_Z f / inject_Z (10 ^ Z.of_nat (String.length b)))%Q
      | _, _ => None
      end
  | _ => None
  end.

(** Arithmetic without rounding error. *)
#[export] Instance exact : Float64 :=
  {| rnd := fun x => x; float_of_string := decimal |}.

(** The body of a 1072 x 1920 screenshot of grey level [c]. *)
Definition shot (c : Byte.byte) : http_outcome :=
  Response 200 [Byte.x43; Byte.x78; c].

(** A detector over two reference portraits, with the default region
    and floor. *)
Definition two_refs : ApexDetector :=
  {| portrait_region := [90; 955; 77; 66];
     min_confidence := (11 # 25)%Q;
     reference_portraits := [("wraith"%string, solid 66 77 200);
                             ("bloodhound"%string, solid 66 77 90)] |}.

Definition quiet_net (answers : list http_outcome) : network :=
  {| respond := fun n _ => nth n answers GetTimeout; requests := [] |}.

(** Four screenshots: a near match, two exact matches of "wraith", and
    a download that times out. *)
Definition four_urls : list string := ["u0"; "u1"; "u2"; "u3"]%string.

Definition four_answers : network :=
  quiet_net [shot Byte.xbe; shot Byte.xc8; shot Byte.xc8; GetTimeout].

Definition wraith_at_1 : match_dict :=
  {| character_name := "wraith";
     confidence := (49744125 # 49744125)%Q;
     url := "u1";
     screenshot_index := Some 1 |}.

(** A detector with a floor below zero and one white reference. *)
Definition lenient : ApexDetector :=
  {| portrait_region := [90; 955; 77; 66];
     min_confidence := (-1)%Q;
     reference_portraits := [("white"%string, solid 66 77 255)] |}.

Definition empty_store (fs : list bool) : store := {| kv := ∅; faults := fs |}.

Definition noon : datetime :=
  {| isoformat := "2024-05-01T12:00:00+00:00"; strftime_Ymd := "2024-05-01" |}.

Definition four_task : Worker.task_data :=
  {| Worker.task_id := "t1"; Worker.clip_id := "clip";
     Worker.screenshot_urls := four_urls |}.

(** The four screenshots and an empty store whose calls fail as [fs]
    tells. *)
Definition four_world (fs : list bool) : world :=
  {| net := four_answers; redis := empty_store fs |}.

End Sample.

(** ** worker.py: the polling loop *)

Module WorkerMain.
Import Detector Store.

(** The Redis list [apex_detection_queue] beside the world of a task:
    [brpop] takes the last entry. *)
Record queued : Type :=
  { inbox : list string;
    world_of : world }.

(** What one turn of the loop did: found the list empty, ran a task that
    returned, or logged an exception and slept. *)
Inductive turn : Type :=
| Idle
| Handled (r : DetectionResult)
| Logged (e : exn).

(** [redis_client.brpop('apex_detection_queue', timeout=5)]: a call of the
    store like the others. *)
Definition brpop (q : queued) : res (option string) * queued :=
  let w := world_of q in
  let after (fs : list bool) : world :=
    {| net := net w; redis := {| kv := kv (redis w); faults := fs |} |} in
  match faults (redis w) with
  | true :: fs =>
      (Raise (ConnectionError "Error connecting to redis"),
       {| inbox := inbox q; world_of := after fs |})
  | _ =>
      (Ok (last (inbox q)),
       {| inbox := removelast (inbox q);
          world_of := after (tail (faults (redis w))) |})
  end.

Section WithDetector.
Context {cv : Cv2} {F : Float64}.
Variable detector : ApexDetector.

(** [json.loads(task_str)] followed by the three lookups with which
    [process_task] starts, before its [try]: it raises for a text that is
    no JSON or lacks one of the keys. *)
Variable json_loads : string -> res Worker.task_data.

(** The body of [while True], at the instant [now]. *)
Definition main_turn (now : datetime) (q : queued) : turn * queued :=
  match brpop q with
  | (Raise e, q) => (Logged e, q)
  | (Ok None, q) => (Idle, q)
  | (Ok (Some task_str), q) =>
      match json_loads task_str with
      | Raise e => (Logged e, q)
      | Ok task_data =>
          match Worker.process_task detector task_data now (world_of q) with
          | (Ok r, w) => (Handled r, {| inbox := inbox q; world_of := w |})
          | (Raise e, w) => (Logged e, {| inbox := inbox q; world_of := w |})
          end
      end
  end.

(** [n] turns of the loop, turn [i] taking place at [clock i]. *)
Fixpoint main (clock : nat -> datetime) (i n : nat) (q : queued)
  : list turn * queued :=
  match n with
  | O => ([], q)
  | S n' =>
      let '(t, q) := main_turn (clock i) q in
      let '(ts, q) := main clock (S i) n' q in
      (t :: ts, q)
  end.

End WithDetector.
End WorkerMain.

(** * Vocabulary of the properties *)

Import Detector Store.
Import (hints) Sample.

(** What the loop over the references maintains about its running
    champion [best_match] and the running maximum [highest]. *)
Definition champion_inv (u : string) (best_match : option match_dict)
  (highest : Q) : Prop :=
  match best_match with
  | None => highest = 0%Q
  | Some m =>
      confidence m = highest /\ (0 < highest)%Q
      /\ url m = u /\ screenshot_index m = None
  end.

(** The network once the first [k] tasks of a batch have issued their
    requests. *)
Definition net_after (net : network) (sent : list string) : network :=
  {| respond := respond net; requests := requests net ++ sent |}.

(** A property of every record in the store. *)
Definition every_record (P : DetectionResult -> Prop) (s : store) : Prop :=
  forall key ttl r, kv s !! key = Some (Json ttl r) -> P r.

(** [triple I m Q]: started in a store that satisfies [I], the step [m]
    leaves a store that satisfies [I], whether it returns or raises, and a
    value it returns satisfies [Q]. *)
Definition triple {A : Type} (I : store -> Prop) (m : io A) (Q : A -> Prop) : Prop :=
  forall w, I (redis w) ->
            I (redis (snd (m w))) /\ forall a, fst (m w) = Ok a -> Q a.

(** The three ways a record says whether there is a detection agree. *)
Definition consistent (r : DetectionResult) : Prop :=
  (BestOverall r = None <-> Detections r = [])
  /\ (Detections r = [] <-> SuccessfulDetections r = 0)
  /\ (BestOverall r <> None <-> Detections r <> [])
  /\ (Detections r <> [] <-> SuccessfulDetections r = 1).


(** What the success path derives from a match [m]: one detection [b]
    with the confidence of [m], recorded three times. *)
Definition one_found (m : match_dict)
  (found : list Detection * option Detection * list string * Z) : Prop :=
  exists b, found = ([b], Some b, [CharacterName b], 1)
            /\ Confidence b = confidence m.

(** The [n]-th forthcoming call reaches the store, or does not. *)
Definition up (fs : list bool) (n : nat) : Prop := nth n fs false = false.
Definition down (fs : list bool) (n : nat) : Prop := nth n fs false = true.

(** [incr key] can succeed: the key is absent or holds a counter below the
    largest 64-bit integer. *)
Definition counter_ready (m : gmap string value) (key : string) : Prop :=
  match m !! key with
  | Some (Int n) => n <> 2 ^ 63 - 1
  | Some (Json _ _) => False
  | None => True
  end.

Definition counter_value (m : gmap string value) (key : string) : Z :=
  match m !! key with
  | Some (Int n) => n
  | _ => 0
  end.

(** The keys of the daily counters. *)
Definition is_counter_key (key : string) : Prop :=
  exists day, key = ("stats:completed:" ++ day)%string
              \/ key = ("stats:failed:" ++ day)%string.

(** The record a failed task writes. *)
Definition failed_record (task_id clip_id : string) (urls : list string)
  (now : datetime) (e : exn) : DetectionResult :=
  {| TaskId := task_id;
     VideoId := clip_id;
     Status := "failed";
     Detections := [];
     BestOverall := None;
     UniqueCharacters := [];
     TotalScreenshots := Z.of_nat (length urls);
     SuccessfulDetections := 0;
     CompletedAt := isoformat now;
     Error := Some (Py.str e) |}.

(** What a completed record says about the match [result] the detector
    returned. *)
Definition reports (r : DetectionResult) (result : option match_dict) : Prop :=
  match result with
  | None => BestOverall r = None
  | Some m =>
      exists k, screenshot_index m = Some k
                /\ BestOverall r = Some {| CharacterName := character_name m;
                                           Confidence := confidence m;
                                           ScreenshotIndex := k;
                                           ScreenshotUrl := url m |}
  end.

(** The store after a completed run: the record under the result key, the
    day's completed counter one higher. *)
Definition store_after_completed (s : store) (task_id : string) (now : datetime)
  (r : DetectionResult) : store :=
  {| kv := <[("stats:completed:" ++ strftime_Ymd now)%string :=
               Int (counter_value (kv s) ("stats:completed:" ++ strftime_Ymd now) + 1)]>
             (<[("result:" ++ task_id)%string := Json 604800 r]> (kv s));
     faults := tail (tail (faults s)) |}.

(** The store after a failure that the handler could record. *)
Definition store_after_failed (s : store) (calls : nat) (task_id : string)
  (now : datetime) (r : DetectionResult) : store :=
  {| kv := <[("stats:failed:" ++ strftime_Ymd now)%string :=
               Int (counter_value (kv s) ("stats:failed:" ++ strftime_Ymd now) + 1)]>
             (<[("result:" ++ task_id)%string := Json 86400 r]> (kv s));
     faults := Nat.iter calls tail (faults s) |}.

(** The exception of a call that cannot reach the store. *)
Definition unreachable : exn := ConnectionError "Error connecting to redis".

(** ** Further vocabulary: the region string, the runs of a task, the loop *)

Import WorkerMain.



(** The detection a task derives from the winning match. *)
Definition detection_of (m : match_dict) (idx : Z) : Detection :=
  {| CharacterName := character_name m;
     Confidence := confidence m;
     ScreenshotIndex := idx;
     ScreenshotUrl := url m |}.

Definition best_detection (result : option match_dict) : option Detection :=
  match result with
  | Some m =>
      match screenshot_index m with
      | Some idx => Some (detection_of m idx)
      | None => None
      end
  | None => None
  end.

(** The record of a completed task whose best detection is [best]. *)
Definition completed_record (task_id clip_id : string) (urls : list string)
  (now : datetime) (best : option Detection) : DetectionResult :=
  {| TaskId := task_id;
     VideoId := clip_id;
     Status := "completed";
     Detections := match best with Some b => [b] | None => [] end;
     BestOverall := best;
     UniqueCharacters := match best with Some b => [CharacterName b] | None => [] end;
     TotalScreenshots := Z.of_nat (length urls);
     SuccessfulDetections := match best with Some _ => 1 | None => 0 end;
     CompletedAt := isoformat now;
     Error := None |}.

(** The ways a run of a task can end, seen from the keys of the store:
    [kv0] before, [kv1] after, [r] the completed record, [out] what the
    function returns or raises, [on_failure e f] what it does once the
    handler has stored the failed record [f] for the exception [e]. *)
Definition run_ends (task_id clip_id : string) (urls : list string) (now : datetime)
  (on_failure : exn -> DetectionResult -> res DetectionResult)
  (r : DetectionResult) (kv0 kv1 : gmap string value)
  (out : res DetectionResult) : Prop :=
  let rk := ("result:" ++ task_id)%string in
  let ck := ("stats:completed:" ++ strftime_Ymd now)%string in
  let fk := ("stats:failed:" ++ strftime_Ymd now)%string in
  (out = Ok r
   /\ kv1 = <[ck := Int (counter_value kv0 ck + 1)]> (<[rk := Json 604800 r]> kv0))
  \/ (exists e,
         out = on_failure e (failed_record task_id clip_id urls now e)
         /\ kv1 = <[fk := Int (counter_value kv0 fk + 1)]>
                    (<[rk := Json 86400 (failed_record task_id clip_id urls now e)]> kv0))
  \/ (exists e,
         out = Raise e
         /\ (kv1 = kv0
             \/ kv1 = <[rk := Json 604800 r]> kv0
             \/ exists e0,
                 kv1 = <[rk := Json 86400 (failed_record task_id clip_id urls now e0)]> kv0)).

(** A property of every record in the store, together with its key and
    its time to live. *)
Definition every_entry (P : string -> Z -> DetectionResult -> Prop)
  (m : gmap string value) : Prop :=
  forall key ttl r, m !! key = Some (Json ttl r) -> P key ttl r.

(** A record sits under the key of its own task, for seven days and
    without error text when completed, for one day and with an error text
    when failed. *)
Definition kept_by_policy (key : string) (ttl : Z) (r : DetectionResult) : Prop :=
  key = ("result:" ++ TaskId r)%string
  /\ ((Status r = "completed"%string /\ ttl = 604800 /\ Error r = None)
      \/ (Status r = "failed"%string /\ ttl = 86400 /\ Error r <> None
          /\ BestOverall r = None)).

(** The best detection of a record points into the request: its index is
    a position among the [TotalScreenshots] URLs, and it is the one entry
    of [Detections] and of [UniqueCharacters]. *)
Definition points_into_request (r : DetectionResult) : Prop :=
  forall b, BestOverall r = Some b ->
            0 <= ScreenshotIndex b < TotalScreenshots r
            /\ Detections r = [b]
            /\ UniqueCharacters r = [CharacterName b].

(** The world a task of the loop starts in: one call of the store is
    spent on [brpop]. *)
Definition after_brpop (q : queued) : world :=
  {| net := net (world_of q);
     redis := {| kv := kv (redis (world_of q));
                 faults := tail (faults (redis (world_of q))) |} |}.

(** ** More concrete values *)

Module Fixtures.

(** A detector without reference portraits. *)
Definition no_refs : ApexDetector :=
  {| portrait_region := [90; 955; 77; 66];
     min_confidence := (11 # 25)%Q;
     reference_portraits := [] |}.

(** A detector whose region has no width: the portrait it cuts out is
    empty and cannot be compared. *)
Definition flat_region : ApexDetector :=
  {| portrait_region := [90; 955; 0; 66];
     min_confidence := (11 # 25)%Q;
     reference_portraits := [("wraith"%string, Sample.solid 66 77 200)] |}.

(** The near match of the first of the four screenshots. *)
Definition wraith_at_0 : match_dict :=
  {| character_name := "wraith";
     confidence := (47143125 # 49744125)%Q;
     url := "u0";
     screenshot_index := Some 0 |}.

(** What [process_screenshot_url] returns for a screenshot of grey level
    200. *)
Definition wraith_seen (u : string) : match_dict :=
  {| character_name := "wraith";
     confidence := (49744125 # 49744125)%Q;
     url := u;
     screenshot_index := None |}.

(** The queue entry "t1" decodes to the task of the four screenshots,
    any other text is no JSON. *)
Definition loads (task_str : string) : res Worker.task_data :=
  if String.eqb task_str "t1" then Ok Sample.four_task
  else Raise (ValueError "Expecting value").

Definition queue_of (entries : list string) (fs : list bool) : queued :=
  {| inbox := entries; world_of := Sample.four_world fs |}.

End Fixtures.

(** * Properties *)

(** ** The Python primitives on small inputs *)

Example split_default_region :
  Py.split "," "90,955,77,66" = ["90"; "955"; "77"; "66"]%string.
Proof. reflexivity. Qed.

Example split_trailing_comma : Py.split "," "a," = ["a"; ""]%string.
Proof. reflexivity. Qed.

Example int_strips_spaces : Py.int " 955 " = Some 955.
Proof. reflexivity. Qed.

Example int_sign_and_underscore : Py.int "-1_000" = Some (-1000).
Proof. reflexivity. Qed.

Example int_rejects_empty : Py.int "" = None.
Proof. reflexivity. Qed.

Example int_rejects_double_underscore : Py.int "1__0" = None.
Proof. reflexivity. Qed.

Example parse_region_docstring : _parse_region "90, 955, 77, 66" = Ok [90; 955; 77; 66].
Proof. reflexivity. Qed.

Example parse_region_empty_component : Py.raises (_parse_region "1,2,,4").
Proof. exact I. Qed.

(** [a[-3:-1]] on five entries is the two entries from index 2. *)
Example slice_from_the_end :
  Py.slice_start 5 (-3) = 2 /\ Py.slice_len 5 (-3) (-1) = 2.
Proof. split; reflexivity. Qed.

(** [a[3:10]] on five entries is clamped to the last two. *)
Example slice_past_the_end :
  Py.slice_start 5 3 = 3 /\ Py.slice_len 5 3 10 = 2.
Proof. split; reflexivity. Qed.

Example trunc_toward_zero : Py.trunc (3 # 2) = 1 /\ Py.trunc (- (3 # 2)) = -1.
Proof. split; reflexivity. Qed.

(** ** Comparisons and truncation *)

Lemma Qltb_lt (a b : Q) : Qltb a b = true <-> (a < b)%Q.
Proof.
  unfold Qltb. rewrite negb_true_iff. split; intros H.
  - apply Qnot_le_lt. intros Hle. apply Qle_bool_iff in Hle. congruence.
  - destruct (Qle_bool b a) eqn:E; [|reflexivity].
    apply Qle_bool_iff in E. exfalso. exact (Qlt_not_le _ _ H E).
Qed.

Lemma Qltb_ge (a b : Q) : Qltb a b = false <-> (b <= a)%Q.
Proof.
  unfold Qltb. rewrite negb_false_iff. apply Qle_bool_iff.
Qed.

Lemma py_min_cases (a b : Q) :
  (py_min a b = b /\ (b < a)%Q) \/ (py_min a b = a /\ (a <= b)%Q).
Proof.
  unfold py_min. destruct (Qltb b a) eqn:E.
  - left. split; [reflexivity | now apply Qltb_lt].
  - right. split; [reflexivity | now apply Qltb_ge].
Qed.

Lemma trunc_floor (x : Q) : (0 <= x)%Q -> Py.trunc x = Qfloor x.
Proof.
  destruct x as [n d]. unfold Qle, Py.trunc, Qfloor. simpl. intros H.
  apply Z.quot_div_nonneg; lia.
Qed.

Lemma trunc_bounds (x : Q) :
  (0 <= x)%Q ->
  0 <= Py.trunc x /\ (inject_Z (Py.trunc x) <= x)%Q /\ (x < inject_Z (Py.trunc x + 1))%Q.
Proof.
  intros H. rewrite (trunc_floor x H). split; [|split].
  - change 0 with (Qfloor 0). now apply Qfloor_resp_le.
  - apply Qfloor_le.
  - apply Qlt_floor.
Qed.

(** ** The region crop *)

(** On an axis of length [n], a slice [a:b] with [0 <= a <= b <= n] starts
    at [a] and has [b - a] entries. *)
Lemma slice_inside (n a b : Z) :
  0 <= a -> a <= b -> b <= n ->
  Py.slice_start n a = a /\ Py.slice_len n a b = b - a.
Proof.
  intros Ha Hab Hb. unfold Py.slice_start, Py.slice_len, Py.slice_index.
  destruct (Z.ltb_spec a 0); destruct (Z.ltb_spec b 0); lia.
Qed.

(** C7: with a region of four numbers, extraction raises exactly when the
    image has fewer than [y + h] rows or fewer than [x + w] columns;
    otherwise it returns the slice [img[y:y+h, x:x+w]], which for a region
    of non-negative numbers has [h] rows and [w] columns and holds at
    [(i, j)] the source pixel at [(y + i, x + j)]. *)
Theorem extract_portrait_crop (self : ApexDetector) (img : image) (x y w h : Z) :
  portrait_region self = [x; y; w; h] ->
  (Py.raises (extract_portrait_from_image self img)
   <-> (shape0 img < y + h \/ shape1 img < x + w))
  /\ (~ (shape0 img < y + h \/ shape1 img < x + w) ->
      extract_portrait_from_image self img = Ok (getslice img y (y + h) x (x + w))
      /\ (0 <= x -> 0 <= y -> 0 <= w -> 0 <= h ->
          shape0 (getslice img y (y + h) x (x + w)) = h
          /\ shape1 (getslice img y (y + h) x (x + w)) = w
          /\ forall i j, px (getslice img y (y + h) x (x + w)) i j
                         = px img (y + i) (x + j))).
Proof.
  intros Hreg. unfold extract_portrait_from_image. rewrite Hreg.
  destruct (Z.ltb_spec (shape0 img) (y + h)) as [Hr | Hr];
    destruct (Z.ltb_spec (shape1 img) (x + w)) as [Hc | Hc]; simpl;
    (split; [split; [intros; try contradiction; lia | intros; try exact I; lia] |]);
    intros Hfit; try (exfalso; lia).
  split; [reflexivity |].
  intros Hx Hy Hw Hh.
  destruct (slice_inside (shape0 img) y (y + h)) as [Hs0 Hl0]; try lia.
  destruct (slice_inside (shape1 img) x (x + w)) as [Hs1 Hl1]; try lia.
  unfold getslice; simpl. rewrite Hs0, Hl0, Hs1, Hl1.
  repeat split; try lia.
Qed.

Lemma extract_portrait_crop_witness :
  portrait_region Sample.two_refs = [90; 955; 77; 66]
  /\ extract_portrait_from_image Sample.two_refs (Sample.solid 1080 1920 7)
     = Ok (getslice (Sample.solid 1080 1920 7) 955 (955 + 66) 90 (90 + 77)).
Proof.
  split; [reflexivity |].
  apply (extract_portrait_crop Sample.two_refs (Sample.solid 1080 1920 7)
           90 955 77 66 eq_refl).
  simpl. lia.
Defined.

(** ** One screenshot *)

Section Screenshot.
Context {cv : Cv2} {F : Float64}.

Lemma champion_inv_nonneg u bm hc : champion_inv u bm hc -> (0 <= hc)%Q.
Proof.
  destruct bm as [m|]; simpl.
  - intros (_ & H & _). now apply Qlt_le_weak.
  - intros ->. apply Qle_refl.
Qed.

Lemma scan_references_inv portrait u refs :
  forall bm hc bm' hc',
    champion_inv u bm hc ->
    scan_references portrait u refs bm hc = Ok (bm', hc') ->
    champion_inv u bm' hc'.
Proof.
  induction refs as [| [name ref] rest IH]; intros bm hc bm' hc' Hinv Hrun.
  - simpl in Hrun. now inversion Hrun; subst.
  - simpl in Hrun.
    destruct (calculate_similarity portrait ref) as [c|e]; simpl in Hrun;
      [|discriminate].
    destruct (Qltb hc c) eqn:Hlt.
    + apply (IH _ _ _ _) in Hrun; [exact Hrun|].
      simpl. repeat split.
      apply Qltb_lt in Hlt.
      eapply Qle_lt_trans; [exact (champion_inv_nonneg _ _ _ Hinv) | exact Hlt].
    + now apply (IH _ _ _ _ Hinv).
Qed.

(** A running maximum that no reference beats stays where it is. *)
Lemma scan_references_none portrait u refs :
  forall hc bm' hc',
    scan_references portrait u refs None hc = Ok (bm', hc') ->
    (forall name ref c, In (name, ref) refs ->
                        calculate_similarity portrait ref = Ok c -> (c <= hc)%Q) ->
    bm' = None.
Proof.
  induction refs as [| [name ref] rest IH]; intros hc bm' hc' Hrun Hlow.
  - simpl in Hrun. now inversion Hrun.
  - simpl in Hrun.
    destruct (calculate_similarity portrait ref) as [c|e] eqn:Hc; simpl in Hrun;
      [|discriminate].
    destruct (Qltb hc c) eqn:Hlt.
    + apply Qltb_lt in Hlt.
      exfalso. apply (Qlt_not_le _ _ Hlt).
      apply (Hlow name ref c); [now left | exact Hc].
    + apply (IH _ _ _ Hrun). intros n r c' Hin. apply (Hlow n r c'). now right.
Qed.

Lemma detect_in_image_some self u img m :
  detect_in_image self u img = Ok (Some m) ->
  (min_confidence self <= confidence m)%Q /\ (0 < confidence m)%Q
  /\ url m = u /\ screenshot_index m = None.
Proof.
  unfold detect_in_image. intros H.
  destruct (resize_to_1080p img) as [img'|]; simpl in H; [|discriminate].
  destruct (extract_portrait_from_image self img') as [p|]; simpl in H;
    [|discriminate].
  destruct (scan_references p u (reference_portraits self) None 0%Q)
    as [[bm hc]|] eqn:Hscan; simpl in H; [|discriminate].
  apply scan_references_inv in Hscan; [|reflexivity].
  destruct (Qle_bool (min_confidence self) hc) eqn:Hfloor; [|discriminate].
  inversion H; subst bm. simpl in Hscan.
  destruct Hscan as (Hc & Hpos & Hu & Hi).
  apply Qle_bool_iff in Hfloor. rewrite Hc. auto.
Qed.

Lemma process_screenshot_url_some self u net m :
  fst (process_screenshot_url self u net) = Some m ->
  (min_confidence self <= confidence m)%Q /\ (0 < confidence m)%Q
  /\ url m = u /\ screenshot_index m = None.
Proof.
  unfold process_screenshot_url.
  destruct (download_image u net) as [[img|] net']; simpl; [|discriminate].
  destruct (detect_in_image self u img) as [r|] eqn:Hd; [|discriminate].
  intros ->. now apply detect_in_image_some in Hd.
Qed.

End Screenshot.

(** ** The batch *)

Section Batch.
Context {cv : Cv2} {F : Float64}.

Lemma process_screenshot_url_net self u net :
  snd (process_screenshot_url self u net) = net_after net [u].
Proof. reflexivity. Qed.

Lemma net_after_nil net : net_after net [] = net.
Proof. destruct net. unfold net_after. simpl. now rewrite app_nil_r. Qed.

Lemma net_after_app net a b : net_after (net_after net a) b = net_after net (a ++ b).
Proof. unfold net_after. simpl. now rewrite app_assoc. Qed.

Lemma gather_cons self u rest net :
  gather self (u :: rest) net
  = (Val (fst (process_screenshot_url self u net))
       :: fst (gather self rest (net_after net [u])),
     snd (gather self rest (net_after net [u]))).
Proof.
  cbn [gather].
  pose proof (process_screenshot_url_net self u net) as Hn.
  destruct (process_screenshot_url self u net) as [r n].
  simpl in Hn. subst n. simpl.
  destruct (gather self rest (net_after net [u])). reflexivity.
Qed.

Lemma gather_net self urls : forall net,
  snd (gather self urls net) = net_after net urls.
Proof.
  induction urls as [|u rest IH]; intros net.
  - simpl. now rewrite net_after_nil.
  - rewrite gather_cons. simpl. rewrite IH. apply net_after_app.
Qed.

Lemma gather_length self urls : forall net,
  length (fst (gather self urls net)) = length urls.
Proof.
  induction urls as [|u rest IH]; intros net; [reflexivity|].
  rewrite gather_cons. simpl. now rewrite IH.
Qed.

(** Entry [k] of the gathered results is what the pipeline of the [k]-th
    URL returns, whatever happened to the other URLs. *)
Lemma gather_lookup self urls : forall net (k : nat) g,
  fst (gather self urls net) !! k = Some g ->
  exists u, urls !! k = Some u
            /\ g = Val (fst (process_screenshot_url self u
                               (net_after net (take k urls)))).
Proof.
  induction urls as [|u rest IH]; intros net k g Hk.
  - simpl in Hk. discriminate.
  - rewrite gather_cons in Hk. simpl in Hk. destruct k as [|k].
    + simpl in Hk. inversion Hk; subst. exists u. split; [reflexivity|].
      replace (take 0 (u :: rest)) with (@nil string) by reflexivity.
      now rewrite net_after_nil.
    + simpl in Hk. apply IH in Hk. destruct Hk as (u' & Hu' & ->).
      exists u'. split; [exact Hu'|].
      rewrite net_after_app. reflexivity.
Qed.

Lemma gather_lookup_url self urls net (k : nat) r :
  fst (gather self urls net) !! k = Some (Val (Some r)) ->
  urls !! k = Some (url r)
  /\ (min_confidence self <= confidence r)%Q /\ (0 < confidence r)%Q.
Proof.
  intros Hk. apply gather_lookup in Hk. destruct Hk as (u & Hu & Hg).
  assert (Hr : fst (process_screenshot_url self u (net_after net (take k urls)))
               = Some r) by congruence.
  apply process_screenshot_url_some in Hr.
  destruct Hr as (Hm & Hp & Hurl & _). rewrite Hurl. auto.
Qed.

(** The reduction either keeps the champion it started from, and then
    no entry exceeds the running maximum; or it ends on the entry of
    lowest index among those of highest confidence. *)
Lemma select_best_spec (results : list gathered) :
  forall idx bo hc bi bo' bi',
    select_best results idx bo hc bi = (bo', bi') ->
    (bo' = bo /\ bi' = bi
     /\ forall (j : nat) r, results !! j = Some (Val (Some r)) ->
                            (confidence r <= hc)%Q)
    \/ (exists (k : nat) r,
           results !! k = Some (Val (Some r))
           /\ bo' = Some r /\ bi' = idx + Z.of_nat k
           /\ (hc < confidence r)%Q
           /\ (forall (j : nat) r', results !! j = Some (Val (Some r')) ->
                                    (confidence r' <= confidence r)%Q)
           /\ (forall (j : nat) r', (j < k)%nat ->
                                    results !! j = Some (Val (Some r')) ->
                                    (confidence r' < confidence r)%Q)).
Proof.
  induction results as [|g rest IH]; intros idx bo hc bi bo' bi' Hrun.
  - simpl in Hrun. inversion Hrun; subst. left. split_and!; try reflexivity.
    intros j r Hj. discriminate.
  - assert (Hskip :
      select_best rest (idx + 1) bo hc bi = (bo', bi') ->
      (forall r, g = Val (Some r) -> (confidence r <= hc)%Q) ->
      (bo' = bo /\ bi' = bi
       /\ forall (j : nat) r, (g :: rest) !! j = Some (Val (Some r)) ->
                              (confidence r <= hc)%Q)
      \/ (exists (k : nat) r,
             (g :: rest) !! k = Some (Val (Some r))
             /\ bo' = Some r /\ bi' = idx + Z.of_nat k
             /\ (hc < confidence r)%Q
             /\ (forall (j : nat) r', (g :: rest) !! j = Some (Val (Some r')) ->
                                      (confidence r' <= confidence r)%Q)
             /\ (forall (j : nat) r', (j < k)%nat ->
                                      (g :: rest) !! j = Some (Val (Some r')) ->
                                      (confidence r' < confidence r)%Q))).
    { intros Hrest Hg. apply IH in Hrest.
      destruct Hrest as [(-> & -> & Hall) | (k & r & Hk & -> & -> & Hlt & Hall & Hbefore)].
      - left. split_and!; try reflexivity. intros [|j] r Hj; simpl in Hj.
        + inversion Hj; subst. now apply Hg.
        + now apply (Hall j).
      - right. exists (S k), r.
        split_and!; [exact Hk | reflexivity | lia | exact Hlt | |].
        + intros [|j] r' Hj; simpl in Hj.
          * inversion Hj; subst. apply Qlt_le_weak.
            eapply Qle_lt_trans; [now apply Hg | exact Hlt].
          * now apply (Hall j).
        + intros [|j] r' Hjk Hj; simpl in Hj.
          * inversion Hj; subst.
            eapply Qle_lt_trans; [now apply Hg | exact Hlt].
          * apply (Hbefore j); [lia | exact Hj]. }
    destruct g as [e | [result|]].
    + simpl in Hrun. apply Hskip; [exact Hrun | intros r Hr; discriminate].
    + simpl in Hrun. destruct (Qltb hc (confidence result)) eqn:Hcmp.
      * apply Qltb_lt in Hcmp. apply IH in Hrun.
        destruct Hrun as [(-> & -> & Hall) | (k & r & Hk & -> & -> & Hlt & Hall & Hbefore)].
        -- right. exists 0%nat, result.
           split_and!; [reflexivity | reflexivity | lia | exact Hcmp | |].
           ++ intros [|j] r' Hj; simpl in Hj.
              ** inversion Hj; subst. apply Qle_refl.
              ** now apply (Hall j).
           ++ intros j r' Hj. lia.
        -- right. exists (S k), r.
           split_and!; [exact Hk | reflexivity | lia | | |].
           ++ eapply Qlt_trans; [exact Hcmp | exact Hlt].
           ++ intros [|j] r' Hj; simpl in Hj.
              ** inversion Hj; subst. now apply Qlt_le_weak.
              ** now apply (Hall j).
           ++ intros [|j] r' Hjk Hj; simpl in Hj.
              ** inversion Hj; subst. exact Hlt.
              ** apply (Hbefore j); [lia | exact Hj].
      * apply Qltb_ge in Hcmp.
        apply Hskip; [exact Hrun | intros r Hr; inversion Hr; subst; exact Hcmp].
    + simpl in Hrun. apply Hskip; [exact Hrun | intros r Hr; discriminate].
Qed.

End Batch.

Section BatchResult.
Context {cv : Cv2} {F : Float64}.

Lemma process_multiple_screenshots_fst self urls net :
  fst (process_multiple_screenshots self urls net)
  = match select_best (fst (gather self urls net)) 0 None 0%Q (-1) with
    | (Some b, best_index) => Some (set_screenshot_index b best_index)
    | (None, _) => None
    end.
Proof.
  unfold process_multiple_screenshots.
  destruct (gather self urls net) as [results net']. simpl.
  destruct (select_best results 0 None 0%Q (-1)) as [[b|] bi]; reflexivity.
Qed.

Lemma process_multiple_screenshots_some self urls net m :
  fst (process_multiple_screenshots self urls net) = Some m ->
  exists (k : nat) r,
    fst (gather self urls net) !! k = Some (Val (Some r))
    /\ m = set_screenshot_index r (Z.of_nat k)
    /\ (forall (j : nat) r', fst (gather self urls net) !! j = Some (Val (Some r')) ->
                             (confidence r' <= confidence r)%Q)
    /\ (forall (j : nat) r', (j < k)%nat ->
                             fst (gather self urls net) !! j = Some (Val (Some r')) ->
                             (confidence r' < confidence r)%Q).
Proof.
  rewrite process_multiple_screenshots_fst.
  destruct (select_best (fst (gather self urls net)) 0 None 0%Q (-1))
    as [bo bi] eqn:Hsel.
  apply select_best_spec in Hsel.
  destruct Hsel as [(-> & _ & _) | (k & r & Hk & -> & -> & _ & Hall & Hbefore)];
    [discriminate|].
  intros Hm. inversion Hm; subst m. exists k, r.
  split_and!; [exact Hk | f_equal; lia | exact Hall | exact Hbefore].
Qed.

Lemma process_multiple_screenshots_none self urls net :
  fst (process_multiple_screenshots self urls net) = None ->
  forall (j : nat) r, fst (gather self urls net) !! j <> Some (Val (Some r)).
Proof.
  rewrite process_multiple_screenshots_fst.
  destruct (select_best (fst (gather self urls net)) 0 None 0%Q (-1))
    as [bo bi] eqn:Hsel.
  apply select_best_spec in Hsel.
  destruct Hsel as [(-> & _ & Hall) | (k & r & _ & -> & _)]; [|discriminate].
  intros _ j r Hj.
  pose proof (Hall j r Hj) as Hle.
  apply gather_lookup_url in Hj. destruct Hj as (_ & _ & Hpos).
  exact (Qlt_not_le _ _ Hpos Hle).
Qed.

Lemma process_multiple_screenshots_net self urls net :
  snd (process_multiple_screenshots self urls net) = net_after net urls.
Proof.
  unfold process_multiple_screenshots.
  pose proof (gather_net self urls net) as Hn.
  destruct (gather self urls net) as [results net']. simpl in *.
  destruct (select_best results 0 None 0%Q (-1)) as [[b|] bi]; exact Hn.
Qed.

End BatchResult.

(** C4: when the batch returns a match, it is the champion of some
    screenshot [k], no champion has a higher confidence, every champion of
    a lower index has a strictly lower one (so among equal top confidences
    the lowest index wins), and the match carries [k], the position of its
    URL in [screenshot_urls].  A batch with at least one champion does
    return a match. *)
Theorem lowest_index_champion_wins {cv : Cv2} {F : Float64}
  (self : ApexDetector) (urls : list string) (net : network) :
  ((exists (j : nat) r, fst (gather self urls net) !! j = Some (Val (Some r)))
   -> exists m, fst (process_multiple_screenshots self urls net) = Some m)
  /\ forall m,
      fst (process_multiple_screenshots self urls net) = Some m ->
      exists (k : nat) r,
        fst (gather self urls net) !! k = Some (Val (Some r))
        /\ m = set_screenshot_index r (Z.of_nat k)
        /\ screenshot_index m = Some (Z.of_nat k)
        /\ urls !! k = Some (url m)
        /\ (forall (j : nat) r',
               fst (gather self urls net) !! j = Some (Val (Some r')) ->
               (confidence r' <= confidence m)%Q)
        /\ (forall (j : nat) r',
               (j < k)%nat ->
               fst (gather self urls net) !! j = Some (Val (Some r')) ->
               (confidence r' < confidence m)%Q).
Proof.
  split.
  - intros (j & r & Hj).
    destruct (fst (process_multiple_screenshots self urls net)) as [m|] eqn:Hm;
      [now exists m|].
    exfalso. exact (process_multiple_screenshots_none self urls net Hm j r Hj).
  - intros m Hm. apply process_multiple_screenshots_some in Hm.
    destruct Hm as (k & r & Hk & -> & Hall & Hbefore).
    exists k, r. split_and!; try reflexivity; try assumption.
    simpl. now apply gather_lookup_url in Hk.
Qed.

Lemma lowest_index_champion_wins_witness :
  fst (process_multiple_screenshots Sample.two_refs Sample.four_urls
         Sample.four_answers) = Some Sample.wraith_at_1
  /\ exists (k : nat) r,
      fst (gather Sample.two_refs Sample.four_urls Sample.four_answers) !! k
      = Some (Val (Some r))
      /\ Sample.wraith_at_1 = set_screenshot_index r (Z.of_nat k)
      /\ screenshot_index Sample.wraith_at_1 = Some (Z.of_nat k)
      /\ Sample.four_urls !! k = Some (url Sample.wraith_at_1)
      /\ (forall (j : nat) r',
             fst (gather Sample.two_refs Sample.four_urls Sample.four_answers) !! j
             = Some (Val (Some r')) ->
             (confidence r' <= confidence Sample.wraith_at_1)%Q)
      /\ (forall (j : nat) r',
             (j < k)%nat ->
             fst (gather Sample.two_refs Sample.four_urls Sample.four_answers) !! j
             = Some (Val (Some r')) ->
             (confidence r' < confidence Sample.wraith_at_1)%Q).
Proof.
  split; [vm_compute; reflexivity |].
  apply (proj2 (lowest_index_champion_wins Sample.two_refs Sample.four_urls
                  Sample.four_answers) Sample.wraith_at_1).
  vm_compute; reflexivity.
Defined.

(** C10: a match returned for one screenshot, or for the batch, has a
    confidence above 0; and a screenshot whose extracted portrait scores at
    most 0 against every reference returns nothing, whatever the floor. *)
Theorem returned_confidence_positive {cv : Cv2} {F : Float64} (self : ApexDetector) :
  (forall u net m,
      fst (process_screenshot_url self u net) = Some m -> (0 < confidence m)%Q)
  /\ (forall urls net m,
         fst (process_multiple_screenshots self urls net) = Some m ->
         (0 < confidence m)%Q)
  /\ (forall u net img img' portrait,
         fst (download_image u net) = Some img ->
         resize_to_1080p img = Ok img' ->
         extract_portrait_from_image self img' = Ok portrait ->
         (forall name ref c,
             In (name, ref) (reference_portraits self) ->
             calculate_similarity portrait ref = Ok c -> (c <= 0)%Q) ->
         fst (process_screenshot_url self u net) = None).
Proof.
  split_and!.
  - intros u net m Hm. now apply process_screenshot_url_some in Hm.
  - intros urls net m Hm. apply process_multiple_screenshots_some in Hm.
    destruct Hm as (k & r & Hk & -> & _). simpl.
    now apply gather_lookup_url in Hk.
  - intros u net img img' portrait Hdl Hrs Hex Hlow.
    unfold process_screenshot_url.
    destruct (download_image u net) as [oimg net']. simpl in Hdl. subst oimg.
    simpl. unfold detect_in_image. rewrite Hrs. simpl. rewrite Hex. simpl.
    destruct (scan_references portrait u (reference_portraits self) None 0%Q)
      as [[bm hc]|] eqn:Hscan; simpl; [|reflexivity].
    apply scan_references_none in Hscan; [|exact Hlow]. subst bm.
    now destruct (Qle_bool (min_confidence self) hc).
Qed.

Lemma returned_confidence_positive_witness :
  (0 < confidence Sample.wraith_at_1)%Q
  /\ fst (process_screenshot_url Sample.lenient "u"
            (Sample.quiet_net [Sample.shot Byte.x00])) = None.
Proof.
  split.
  - apply (proj1 (proj2 (returned_confidence_positive Sample.two_refs))
             Sample.four_urls Sample.four_answers Sample.wraith_at_1).
    vm_compute; reflexivity.
  - apply (proj2 (proj2 (returned_confidence_positive Sample.lenient))
             "u"%string (Sample.quiet_net [Sample.shot Byte.x00])
             (Sample.solid 1072 1920 0) (Sample.solid 1072 1920 0)
             (getslice (Sample.solid 1072 1920 0) 955 (955 + 66) 90 (90 + 77))).
    + reflexivity.
    + reflexivity.
    + reflexivity.
    + intros name ref c [Hin | []] Hc. inversion Hin; subst name ref.
      vm_compute in Hc. inversion Hc; subst c. vm_compute. discriminate.
Defined.

(** ** The similarity score *)



(** ** Configuration *)






(** ** Reasoning about task steps *)

Section Triples.
Context {A B : Type} (I : store -> Prop).

Lemma triple_ret (a : A) (Q : A -> Prop) : Q a -> triple I (ret a) Q.
Proof. intros Ha w Hw. split; [exact Hw|]. simpl. intros a' [= <-]. exact Ha. Qed.

Lemma triple_raise (e : exn) (Q : A -> Prop) : triple I (raise e) Q.
Proof. intros w Hw. split; [exact Hw|]. simpl. discriminate. Qed.

Lemma triple_bind (m : io A) (k : A -> io B) (Q : A -> Prop) (R : B -> Prop) :
  triple I m Q -> (forall a, Q a -> triple I (k a) R) -> triple I (iobind m k) R.
Proof.
  intros Hm Hk w Hw. unfold iobind.
  destruct (Hm w Hw) as [Hi Hq].
  destruct (m w) as [[a|e] w']; simpl in *.
  - apply Hk; [now apply Hq | exact Hi].
  - split; [exact Hi | discriminate].
Qed.

Lemma triple_try (m : io A) (h : exn -> io A) (Q : A -> Prop) :
  triple I m Q -> (forall e, triple I (h e) Q) -> triple I (try_except m h) Q.
Proof.
  intros Hm Hh w Hw. unfold try_except.
  destruct (Hm w Hw) as [Hi Hq].
  destruct (m w) as [[a|e] w']; simpl in *.
  - split; [exact Hi | exact Hq].
  - now apply Hh.
Qed.

Lemma triple_on_net (f : network -> A * network) (Q : A -> Prop) :
  (forall n, Q (fst (f n))) -> triple I (on_net f) Q.
Proof.
  intros Hf w Hw. unfold on_net. specialize (Hf (net w)).
  destruct (f (net w)) as [a n]. simpl in *.
  split; [exact Hw|]. intros a' [= <-]. exact Hf.
Qed.

Lemma triple_getitem (key : string) (v : option A) (Q : A -> Prop) :
  (forall a, v = Some a -> Q a) -> triple I (getitem key v) Q.
Proof.
  intros Hv. destruct v as [a|]; simpl.
  - apply triple_ret. now apply Hv.
  - apply triple_raise.
Qed.

End Triples.

Lemma triple_setex (P : DetectionResult -> Prop) (key : string) (ttl : Z)
  (r : DetectionResult) :
  P r -> triple (every_record P) (on_redis (setex key ttl r)) (fun _ => True).
Proof.
  intros Hr w Hw. unfold on_redis, setex, call.
  destruct (faults (redis w)) as [|[|] fs]; simpl; (split; [|trivial]);
    try exact Hw;
    intros k t r' Hk; simpl in Hk;
    (destruct (decide (key = k)) as [<- | Hne];
     [rewrite lookup_insert_eq in Hk; now inversion Hk; subst
     | rewrite lookup_insert_ne in Hk by exact Hne; exact (Hw k t r' Hk)]).
Qed.

Lemma triple_incr (P : DetectionResult -> Prop) (key : string) :
  triple (every_record P) (on_redis (incr key)) (fun _ => True).
Proof.
  intros w Hw. unfold on_redis, incr, call.
  assert (Hput : forall n, every_record P {| kv := <[key := Int n]> (kv (redis w));
                                             faults := tail (faults (redis w)) |}).
  { intros n k t r' Hk. simpl in Hk.
    destruct (decide (key = k)) as [<- | Hne].
    - rewrite lookup_insert_eq in Hk. discriminate.
    - rewrite lookup_insert_ne in Hk by exact Hne. exact (Hw k t r' Hk). }
  destruct (faults (redis w)) as [|[|] fs] eqn:Hf; simpl in *;
    try (split; [exact Hw | trivial]);
    (destruct (kv (redis w) !! key) as [[t r|n]|]; simpl;
     [ split; [exact Hw | trivial]
     | destruct (n =? 2 ^ 63 - 1); simpl; (split; [|trivial]);
       [exact Hw | apply Hput]
     | split; [apply Hput | trivial] ]).
Qed.

(** ** The persisted record *)

(** Walks through the steps of a task, leaving the conditions on the
    records that are written. *)
Ltac task_steps :=
  repeat first
    [ apply triple_raise
    | apply triple_ret
    | apply triple_incr
    | apply triple_setex
    | eapply triple_bind; [apply triple_incr | intros _ _]
    | eapply triple_bind; [apply triple_setex | intros _ _] ].

(** A [ret a] step, remembering that the value is [a]. *)
Ltac ret_exact :=
  lazymatch goal with
  | |- triple _ (ret ?a) _ =>
      apply (triple_ret _ a (fun found => found = a)); reflexivity
  end.

Section Persisted.
Context {cv : Cv2} {F : Float64}.
Variable detector : ApexDetector.


Lemma process_screenshots_index urls n m :
  fst (process_screenshots detector urls n) = Some m ->
  exists k : nat, screenshot_index m = Some (Z.of_nat k) /\ (k < length urls)%nat.
Proof.
  unfold process_screenshots. intros Hm.
  apply process_multiple_screenshots_some in Hm.
  destruct Hm as (k & r & Hk & -> & _). exists k. split; [reflexivity|].
  apply lookup_lt_Some in Hk. now rewrite gather_length in Hk.
Qed.

Lemma consistent_empty tid cid st n t e :
  consistent {| TaskId := tid; VideoId := cid; Status := st; Detections := [];
                BestOverall := None; UniqueCharacters := [];
                TotalScreenshots := n; SuccessfulDetections := 0;
                CompletedAt := t; Error := e |}.
Proof. unfold consistent; simpl. split_and!; split; intros; congruence. Qed.

Lemma consistent_one tid cid st n t e b :
  consistent {| TaskId := tid; VideoId := cid; Status := st; Detections := [b];
                BestOverall := Some b; UniqueCharacters := [CharacterName b];
                TotalScreenshots := n; SuccessfulDetections := 1;
                CompletedAt := t; Error := e |}.
Proof. unfold consistent; simpl. split_and!; split; intros; congruence. Qed.



Lemma video_task_consistent task_id clip_id urls now :
  triple (every_record consistent)
    (Tasks.process_video_screenshots detector task_id clip_id urls now) consistent.
Proof.
  unfold Tasks.process_video_screenshots. apply triple_try.
  - eapply triple_bind; [apply (triple_on_net _ _ (fun _ => True)); trivial|].
    intros [result|] _.
    + eapply (triple_bind _ _ _ (one_found result)).
      { eapply triple_bind; [apply (triple_getitem _ _ _ (fun _ => True)); trivial|].
        intros idx _. apply triple_ret.
        exists {| CharacterName := character_name result;
                  Confidence := confidence result;
                  ScreenshotIndex := idx;
                  ScreenshotUrl := url result |}.
        split; reflexivity. }
      intros found (b & -> & Hb). task_steps; apply consistent_one.
    + eapply triple_bind; [ret_exact|].
      intros found ->. task_steps; apply consistent_empty.
  - intros e. task_steps. apply consistent_empty.
Qed.

Lemma worker_task_consistent td now :
  triple (every_record consistent) (Worker.process_task detector td now) consistent.
Proof.
  unfold Worker.process_task. apply triple_try.
  - eapply triple_bind; [apply (triple_on_net _ _ (fun _ => True)); trivial|].
    intros [result|] _.
    + eapply (triple_bind _ _ _ (one_found result)).
      { eapply triple_bind; [apply (triple_getitem _ _ _ (fun _ => True)); trivial|].
        intros idx _. apply triple_ret.
        exists {| CharacterName := character_name result;
                  Confidence := confidence result;
                  ScreenshotIndex := idx;
                  ScreenshotUrl := url result |}.
        split; reflexivity. }
      intros found (b & -> & Hb). task_steps; apply consistent_one.
    + eapply triple_bind; [ret_exact|].
      intros found ->. task_steps; apply consistent_empty.
  - intros e. task_steps; apply consistent_empty.
Qed.



End Persisted.

(** C2: every record in the store, and the record a task returns, has
    [BestOverall] null iff [Detections] is empty iff
    [SuccessfulDetections] is 0, and [BestOverall] present iff
    [Detections] is non-empty iff [SuccessfulDetections] is 1; both tasks
    keep it so, on the success path and on the failure path. *)
Theorem persisted_record_consistent {cv : Cv2} {F : Float64}
  (detector : ApexDetector) (task_id clip_id : string) (urls : list string)
  (td : Worker.task_data) (now : datetime) (w : world) :
  every_record consistent (redis w) ->
  (every_record consistent
     (redis (snd (Tasks.process_video_screenshots detector task_id clip_id urls now w)))
   /\ forall r,
       fst (Tasks.process_video_screenshots detector task_id clip_id urls now w) = Ok r ->
       consistent r)
  /\ (every_record consistent (redis (snd (Worker.process_task detector td now w)))
      /\ forall r, fst (Worker.process_task detector td now w) = Ok r -> consistent r).
Proof.
  intros Hw. split; [apply video_task_consistent | apply worker_task_consistent];
    exact Hw.
Qed.


Lemma every_record_empty (P : DetectionResult -> Prop) (fs : list bool) :
  every_record P (Sample.empty_store fs).
Proof. intros key ttl r Hk. simpl in Hk. rewrite lookup_empty in Hk. discriminate. Qed.

Lemma persisted_record_consistent_witness :
  every_record consistent (redis (Sample.four_world []))
  /\ every_record consistent
       (redis (snd (Worker.process_task Sample.two_refs Sample.four_task Sample.noon
                      (Sample.four_world [])))).
Proof.
  split; [apply every_record_empty |].
  apply (persisted_record_consistent Sample.two_refs "t1" "clip" Sample.four_urls
           Sample.four_task Sample.noon (Sample.four_world [])).
  apply every_record_empty.
Defined.


(** ** Runs of a task against a store that may be unreachable *)

Lemma nth_tail (fs : list bool) (n : nat) : nth n (tail fs) false = nth (S n) fs false.
Proof. destruct fs; [now destruct n | reflexivity]. Qed.

Lemma setex_up key ttl r s :
  up (faults s) 0 ->
  setex key ttl r s
  = (Ok tt, {| kv := <[key := Json ttl r]> (kv s); faults := tail (faults s) |}).
Proof.
  unfold up, setex, call. destruct (faults s) as [|[|] fs]; simpl;
    [reflexivity | discriminate | reflexivity].
Qed.

Lemma setex_down key ttl r s :
  down (faults s) 0 ->
  setex key ttl r s
  = (Raise (ConnectionError "Error connecting to redis"),
     {| kv := kv s; faults := tail (faults s) |}).
Proof.
  unfold down, setex, call. destruct (faults s) as [|[|] fs]; simpl;
    [discriminate | reflexivity | discriminate].
Qed.

Lemma incr_up key s :
  up (faults s) 0 -> counter_ready (kv s) key ->
  incr key s
  = (Ok (counter_value (kv s) key + 1),
     {| kv := <[key := Int (counter_value (kv s) key + 1)]> (kv s);
        faults := tail (faults s) |}).
Proof.
  unfold up, incr, call, counter_ready, counter_value.
  intros Hup Hready.
  assert (Hop :
    match kv s !! key with
    | Some (Json _ _) =>
        (Raise (ResponseError "value is not an integer or out of range"), kv s)
    | Some (Int n) =>
        if n =? 2 ^ 63 - 1
        then (Raise (ResponseError "increment or decrement would overflow"), kv s)
        else (Ok (n + 1), <[key := Int (n + 1)]> (kv s))
    | None => (Ok 1, <[key := Int 1]> (kv s))
    end
    = (Ok (match kv s !! key with Some (Int n) => n | _ => 0 end + 1),
       <[key := Int (match kv s !! key with Some (Int n) => n | _ => 0 end + 1)]> (kv s))).
  { destruct (kv s !! key) as [[t r|n]|]; [contradiction | | reflexivity].
    destruct (Z.eqb_spec n (2 ^ 63 - 1)); [contradiction | reflexivity]. }
  destruct (faults s) as [|[|] fs]; simpl in *; try discriminate;
    now rewrite Hop.
Qed.

Lemma completed_key_is_counter day : is_counter_key ("stats:completed:" ++ day).
Proof. exists day. now left. Qed.

Lemma failed_key_is_counter day : is_counter_key ("stats:failed:" ++ day).
Proof. exists day. now right. Qed.

Lemma result_key_not_counter (task_id key : string) :
  is_counter_key key -> ("result:" ++ task_id)%string <> key.
Proof. intros (day & [-> | ->]); cbv [String.append]; discriminate. Qed.

Lemma counter_ready_after_result m task_id ttl r key :
  is_counter_key key ->
  counter_ready m key ->
  counter_ready (<[("result:" ++ task_id)%string := Json ttl r]> m) key.
Proof.
  intros Hkey. unfold counter_ready.
  now rewrite lookup_insert_ne by now apply result_key_not_counter.
Qed.

Lemma counter_value_after_result m task_id ttl r key :
  is_counter_key key ->
  counter_value (<[("result:" ++ task_id)%string := Json ttl r]> m) key
  = counter_value m key.
Proof.
  intros Hkey. unfold counter_value.
  now rewrite lookup_insert_ne by now apply result_key_not_counter.
Qed.

Lemma up_tail fs n : up fs (S n) -> up (tail fs) n.
Proof. unfold up. now rewrite nth_tail. Qed.

Lemma down_tail fs n : down fs (S n) -> down (tail fs) n.
Proof. unfold down. now rewrite nth_tail. Qed.

(** Unfolds a task down to its calls of the detector and of the store. *)
Ltac open_task :=
  unfold Tasks.process_video_screenshots, Worker.process_task,
    try_except, iobind, on_net, on_redis; simpl.

Section Runs.
Context {cv : Cv2} {F : Float64}.
Variable detector : ApexDetector.
Local Arguments String.append : simpl never.

Lemma worker_run_completed td now w :
  up (faults (redis w)) 0 -> up (faults (redis w)) 1 ->
  counter_ready (kv (redis w)) ("stats:completed:" ++ strftime_Ymd now) ->
  exists r,
    Worker.process_task detector td now w
    = (Ok r, {| net := net_after (net w) (Worker.screenshot_urls td);
                redis := store_after_completed (redis w) (Worker.task_id td) now r |})
    /\ Status r = "completed"%string
    /\ TotalScreenshots r = Z.of_nat (length (Worker.screenshot_urls td))
    /\ Error r = None
    /\ reports r (fst (process_screenshots detector (Worker.screenshot_urls td) (net w))).
Proof.
  intros Hup0 Hup1 Hready. open_task.
  pose proof (process_multiple_screenshots_net detector
                (Worker.screenshot_urls td) (net w)) as Hnet.
  pose proof (process_screenshots_index detector
                (Worker.screenshot_urls td) (net w)) as Hidx.
  unfold process_screenshots in *.
  destruct (process_multiple_screenshots detector (Worker.screenshot_urls td) (net w))
    as [[m|] n']; simpl in *; subst n'.
  - destruct (Hidx m eq_refl) as (k & Hk & _). rewrite Hk. simpl.
    rewrite setex_up by exact Hup0. simpl.
    rewrite incr_up;
      [ | now apply up_tail
        | now apply counter_ready_after_result; [apply completed_key_is_counter|] ].
    simpl. rewrite counter_value_after_result by apply completed_key_is_counter.
    eexists. split_and!; try reflexivity.
    simpl. exists (Z.of_nat k). split; reflexivity.
  - rewrite setex_up by exact Hup0. simpl.
    rewrite incr_up;
      [ | now apply up_tail
        | now apply counter_ready_after_result; [apply completed_key_is_counter|] ].
    simpl. rewrite counter_value_after_result by apply completed_key_is_counter.
    eexists. split_and!; reflexivity.
Qed.

Lemma video_run_completed task_id clip_id urls now w :
  up (faults (redis w)) 0 -> up (faults (redis w)) 1 ->
  counter_ready (kv (redis w)) ("stats:completed:" ++ strftime_Ymd now) ->
  exists r,
    Tasks.process_video_screenshots detector task_id clip_id urls now w
    = (Ok r, {| net := net_after (net w) urls;
                redis := store_after_completed (redis w) task_id now r |})
    /\ Status r = "completed"%string
    /\ TotalScreenshots r = Z.of_nat (length urls)
    /\ Error r = None
    /\ reports r (fst (process_screenshots detector urls (net w))).
Proof.
  intros Hup0 Hup1 Hready. open_task.
  pose proof (process_multiple_screenshots_net detector urls (net w)) as Hnet.
  pose proof (process_screenshots_index detector urls (net w)) as Hidx.
  unfold process_screenshots in *.
  destruct (process_multiple_screenshots detector urls (net w))
    as [[m|] n']; simpl in *; subst n'.
  - destruct (Hidx m eq_refl) as (k & Hk & _). rewrite Hk. simpl.
    rewrite setex_up by exact Hup0. simpl.
    rewrite incr_up;
      [ | now apply up_tail
        | now apply counter_ready_after_result; [apply completed_key_is_counter|] ].
    simpl. rewrite counter_value_after_result by apply completed_key_is_counter.
    eexists. split_and!; try reflexivity.
    simpl. exists (Z.of_nat k). split; reflexivity.
  - rewrite setex_up by exact Hup0. simpl.
    rewrite incr_up;
      [ | now apply up_tail
        | now apply counter_ready_after_result; [apply completed_key_is_counter|] ].
    simpl. rewrite counter_value_after_result by apply completed_key_is_counter.
    eexists. split_and!; reflexivity.
Qed.

(** The first write fails and the handler reaches the store. *)
Lemma worker_run_recorded_failure td now w :
  down (faults (redis w)) 0 -> up (faults (redis w)) 1 -> up (faults (redis w)) 2 ->
  counter_ready (kv (redis w)) ("stats:failed:" ++ strftime_Ymd now) ->
  Worker.process_task detector td now w
  = (Ok (failed_record (Worker.task_id td) (Worker.clip_id td)
           (Worker.screenshot_urls td) now unreachable),
     {| net := net_after (net w) (Worker.screenshot_urls td);
        redis := store_after_failed (redis w) 3 (Worker.task_id td) now
                   (failed_record (Worker.task_id td) (Worker.clip_id td)
                      (Worker.screenshot_urls td) now unreachable) |}).
Proof.
  intros Hd0 Hup1 Hup2 Hready. open_task.
  pose proof (process_multiple_screenshots_net detector
                (Worker.screenshot_urls td) (net w)) as Hnet.
  pose proof (process_screenshots_index detector
                (Worker.screenshot_urls td) (net w)) as Hidx.
  unfold process_screenshots in *.
  destruct (process_multiple_screenshots detector (Worker.screenshot_urls td) (net w))
    as [[m|] n']; simpl in *; subst n';
    [destruct (Hidx m eq_refl) as (k & Hk & _); rewrite Hk; simpl |];
    rewrite setex_down by exact Hd0; simpl;
    (rewrite setex_up by now apply up_tail); simpl;
    (rewrite incr_up;
     [ | now apply up_tail, up_tail
       | now apply counter_ready_after_result; [apply failed_key_is_counter|] ]);
    simpl; rewrite counter_value_after_result by apply failed_key_is_counter;
    reflexivity.
Qed.

Lemma video_run_recorded_failure task_id clip_id urls now w :
  down (faults (redis w)) 0 -> up (faults (redis w)) 1 -> up (faults (redis w)) 2 ->
  counter_ready (kv (redis w)) ("stats:failed:" ++ strftime_Ymd now) ->
  Tasks.process_video_screenshots detector task_id clip_id urls now w
  = (Raise unreachable,
     {| net := net_after (net w) urls;
        redis := store_after_failed (redis w) 3 task_id now
                   (failed_record task_id clip_id urls now unreachable) |}).
Proof.
  intros Hd0 Hup1 Hup2 Hready. open_task.
  pose proof (process_multiple_screenshots_net detector urls (net w)) as Hnet.
  pose proof (process_screenshots_index detector urls (net w)) as Hidx.
  unfold process_screenshots in *.
  destruct (process_multiple_screenshots detector urls (net w))
    as [[m|] n']; simpl in *; subst n';
    [destruct (Hidx m eq_refl) as (k & Hk & _); rewrite Hk; simpl |];
    rewrite setex_down by exact Hd0; simpl;
    (rewrite setex_up by now apply up_tail); simpl;
    (rewrite incr_up;
     [ | now apply up_tail, up_tail
       | now apply counter_ready_after_result; [apply failed_key_is_counter|] ]);
    simpl; rewrite counter_value_after_result by apply failed_key_is_counter;
    reflexivity.
Qed.

(** The first write fails and so does the handler's. *)
Lemma worker_run_lost_failure td now w :
  down (faults (redis w)) 0 -> down (faults (redis w)) 1 ->
  Worker.process_task detector td now w
  = (Raise unreachable,
     {| net := net_after (net w) (Worker.screenshot_urls td);
        redis := {| kv := kv (redis w); faults := tail (tail (faults (redis w))) |} |}).
Proof.
  intros Hd0 Hd1. open_task.
  pose proof (process_multiple_screenshots_net detector
                (Worker.screenshot_urls td) (net w)) as Hnet.
  pose proof (process_screenshots_index detector
                (Worker.screenshot_urls td) (net w)) as Hidx.
  unfold process_screenshots in *.
  destruct (process_multiple_screenshots detector (Worker.screenshot_urls td) (net w))
    as [[m|] n']; simpl in *; subst n';
    [destruct (Hidx m eq_refl) as (k & Hk & _); rewrite Hk; simpl |];
    rewrite setex_down by exact Hd0; simpl;
    (rewrite setex_down by now apply down_tail); reflexivity.
Qed.

Lemma video_run_lost_failure task_id clip_id urls now w :
  down (faults (redis w)) 0 -> down (faults (redis w)) 1 ->
  Tasks.process_video_screenshots detector task_id clip_id urls now w
  = (Raise unreachable,
     {| net := net_after (net w) urls;
        redis := {| kv := kv (redis w); faults := tail (tail (faults (redis w))) |} |}).
Proof.
  intros Hd0 Hd1. open_task.
  pose proof (process_multiple_screenshots_net detector urls (net w)) as Hnet.
  pose proof (process_screenshots_index detector urls (net w)) as Hidx.
  unfold process_screenshots in *.
  destruct (process_multiple_screenshots detector urls (net w))
    as [[m|] n']; simpl in *; subst n';
    [destruct (Hidx m eq_refl) as (k & Hk & _); rewrite Hk; simpl |];
    rewrite setex_down by exact Hd0; simpl;
    (rewrite setex_down by now apply down_tail); reflexivity.
Qed.

End Runs.

(** ** Isolation of a failing URL *)

Section Isolation.
Context {cv : Cv2} {F : Float64}.
Variable self : ApexDetector.

Lemma gather_lookup_total urls net (k : nat) u :
  urls !! k = Some u ->
  fst (gather self urls net) !! k
  = Some (Val (fst (process_screenshot_url self u (net_after net (take k urls))))).
Proof.
  intros Hu.
  destruct (fst (gather self urls net) !! k) as [g|] eqn:Hg.
  - apply gather_lookup in Hg. destruct Hg as (u' & Hu' & ->). congruence.
  - apply lookup_ge_None in Hg. rewrite gather_length in Hg.
    apply lookup_lt_Some in Hu. lia.
Qed.

Lemma failed_download_no_result u net :
  match respond net (length (requests net)) u with
  | Response status body => status <> 200 \/ imdecode body = None
  | GetTimeout | GetError _ => True
  end ->
  fst (process_screenshot_url self u net) = None.
Proof.
  unfold process_screenshot_url, download_image, session_get.
  destruct (respond net (length (requests net)) u) as [| e | status body];
    simpl; try reflexivity.
  intros [Hs | Hd].
  - destruct (Z.eqb_spec status 200); [contradiction | reflexivity].
  - destruct (status =? 200); simpl; [now rewrite Hd | reflexivity].
Qed.

Lemma failed_extraction_no_result u net img :
  fst (download_image u net) = Some img ->
  (Py.raises (resize_to_1080p img)
   \/ exists img', resize_to_1080p img = Ok img'
                   /\ Py.raises (extract_portrait_from_image self img')) ->
  fst (process_screenshot_url self u net) = None.
Proof.
  intros Hdl Hfail. unfold process_screenshot_url.
  destruct (download_image u net) as [oimg net']. simpl in Hdl. subst oimg. simpl.
  unfold detect_in_image.
  destruct Hfail as [Hr | (img' & Hr & He)].
  - destruct (resize_to_1080p img); [contradiction | reflexivity].
  - rewrite Hr. simpl.
    destruct (extract_portrait_from_image self img'); [contradiction | reflexivity].
Qed.

End Isolation.

(** C5: a URL whose request times out, raises, answers with a status other
    than 200 or with bytes that do not decode, or whose image cannot be
    resized or is too small for the region, yields no result; every URL of
    the batch is requested exactly once, in order, and entry [k] of the
    gathered results is the outcome of the [k]-th URL's own pipeline; and
    with a store that can be reached both tasks return a record with
    status "completed" that is stored under [result:<task_id>], whatever
    happened to the URLs. *)
Theorem failed_url_is_isolated {cv : Cv2} {F : Float64} (self : ApexDetector) :
  (forall u net,
      match respond net (length (requests net)) u with
      | Response status body => status <> 200 \/ imdecode body = None
      | GetTimeout | GetError _ => True
      end ->
      fst (process_screenshot_url self u net) = None)
  /\ (forall u net img,
         fst (download_image u net) = Some img ->
         (Py.raises (resize_to_1080p img)
          \/ exists img', resize_to_1080p img = Ok img'
                          /\ Py.raises (extract_portrait_from_image self img')) ->
         fst (process_screenshot_url self u net) = None)
  /\ (forall urls net,
         requests (snd (process_multiple_screenshots self urls net))
         = requests net ++ urls)
  /\ (forall urls net (k : nat) u,
         urls !! k = Some u ->
         fst (gather self urls net) !! k
         = Some (Val (fst (process_screenshot_url self u
                             (net_after net (take k urls))))))
  /\ (forall td now w,
         up (faults (redis w)) 0 -> up (faults (redis w)) 1 ->
         counter_ready (kv (redis w)) ("stats:completed:" ++ strftime_Ymd now) ->
         exists r,
           fst (Worker.process_task self td now w) = Ok r
           /\ Status r = "completed"%string
           /\ TotalScreenshots r = Z.of_nat (length (Worker.screenshot_urls td))
           /\ reports r (fst (process_screenshots self (Worker.screenshot_urls td) (net w)))
           /\ kv (redis (snd (Worker.process_task self td now w)))
                !! ("result:" ++ Worker.task_id td)%string = Some (Json 604800 r))
  /\ (forall task_id clip_id urls now w,
         up (faults (redis w)) 0 -> up (faults (redis w)) 1 ->
         counter_ready (kv (redis w)) ("stats:completed:" ++ strftime_Ymd now) ->
         exists r,
           fst (Tasks.process_video_screenshots self task_id clip_id urls now w) = Ok r
           /\ Status r = "completed"%string
           /\ TotalScreenshots r = Z.of_nat (length urls)
           /\ reports r (fst (process_screenshots self urls (net w)))
           /\ kv (redis (snd (Tasks.process_video_screenshots self task_id clip_id
                                urls now w)))
                !! ("result:" ++ task_id)%string = Some (Json 604800 r)).
Proof.
  split_and!.
  - apply failed_download_no_result.
  - apply failed_extraction_no_result.
  - intros urls net. now rewrite process_multiple_screenshots_net.
  - apply gather_lookup_total.
  - intros td now w Hup0 Hup1 Hready.
    destruct (worker_run_completed self td now w Hup0 Hup1 Hready)
      as (r & Hrun & Hst & Htot & _ & Hrep).
    exists r. rewrite Hrun. split_and!; try assumption; try reflexivity.
    simpl. rewrite lookup_insert_ne
      by (apply not_eq_sym, result_key_not_counter, completed_key_is_counter).
    apply lookup_insert_eq.
  - intros task_id clip_id urls now w Hup0 Hup1 Hready.
    destruct (video_run_completed self task_id clip_id urls now w Hup0 Hup1 Hready)
      as (r & Hrun & Hst & Htot & _ & Hrep).
    exists r. rewrite Hrun. split_and!; try assumption; try reflexivity.
    simpl. rewrite lookup_insert_ne
      by (apply not_eq_sym, result_key_not_counter, completed_key_is_counter).
    apply lookup_insert_eq.
Qed.

(** Of four screenshots the last one times out: it yields nothing, and the
    task completes on the other three. *)
Lemma failed_url_is_isolated_witness :
  fst (process_screenshot_url Sample.two_refs "u3"
         (net_after Sample.four_answers (take 3 Sample.four_urls))) = None
  /\ exists r,
      fst (Worker.process_task Sample.two_refs Sample.four_task Sample.noon
             (Sample.four_world [])) = Ok r
      /\ Status r = "completed"%string
      /\ TotalScreenshots r = Z.of_nat (length (Worker.screenshot_urls Sample.four_task))
      /\ reports r (fst (process_screenshots Sample.two_refs
                           (Worker.screenshot_urls Sample.four_task)
                           (net (Sample.four_world []))))
      /\ kv (redis (snd (Worker.process_task Sample.two_refs Sample.four_task
                           Sample.noon (Sample.four_world []))))
           !! ("result:" ++ Worker.task_id Sample.four_task)%string
         = Some (Json 604800 r).
Proof.
  split.
  - apply (proj1 (failed_url_is_isolated Sample.two_refs)). exact I.
  - apply (proj1 (proj2 (proj2 (proj2 (proj2 (failed_url_is_isolated Sample.two_refs)))))
             Sample.four_task Sample.noon (Sample.four_world []));
      reflexivity.
Defined.

(** ** A store that cannot be reached *)

(** C1, as the code has it: when the write of the completed record cannot
    reach the store, the handler builds the failed record, whose [Error]
    is the text of the exception.  If the handler's two calls reach the
    store, the record is stored under [result:<task_id>] for 86400 seconds
    and the day's failed counter goes up by one; the Celery task then
    re-raises the exception, and the stand-alone worker returns the failed
    record.  If the handler's write cannot reach the store either, nothing
    is written and the exception leaves both functions. *)
Theorem store_failure_outcome {cv : Cv2} {F : Float64} (detector : ApexDetector)
  (task_id clip_id : string) (urls : list string) (now : datetime) (w : world) :
  let td := {| Worker.task_id := task_id; Worker.clip_id := clip_id;
               Worker.screenshot_urls := urls |} in
  let failed := failed_record task_id clip_id urls now unreachable in
  down (faults (redis w)) 0 ->
  (up (faults (redis w)) 1 -> up (faults (redis w)) 2 ->
   counter_ready (kv (redis w)) ("stats:failed:" ++ strftime_Ymd now) ->
   Status failed = "failed"%string
   /\ Error failed = Some "Error connecting to redis"%string
   /\ fst (Tasks.process_video_screenshots detector task_id clip_id urls now w)
      = Raise unreachable
   /\ redis (snd (Tasks.process_video_screenshots detector task_id clip_id urls now w))
      = store_after_failed (redis w) 3 task_id now failed
   /\ fst (Worker.process_task detector td now w) = Ok failed
   /\ redis (snd (Worker.process_task detector td now w))
      = store_after_failed (redis w) 3 task_id now failed
   /\ kv (store_after_failed (redis w) 3 task_id now failed)
        !! ("result:" ++ task_id)%string = Some (Json 86400 failed)
   /\ kv (store_after_failed (redis w) 3 task_id now failed)
        !! ("stats:failed:" ++ strftime_Ymd now)%string
      = Some (Int (counter_value (kv (redis w)) ("stats:failed:" ++ strftime_Ymd now) + 1)))
  /\ (down (faults (redis w)) 1 ->
      fst (Tasks.process_video_screenshots detector task_id clip_id urls now w)
      = Raise unreachable
      /\ kv (redis (snd (Tasks.process_video_screenshots detector task_id clip_id
                           urls now w))) = kv (redis w)
      /\ fst (Worker.process_task detector td now w) = Raise unreachable
      /\ kv (redis (snd (Worker.process_task detector td now w))) = kv (redis w)).
Proof.
  intros td failed Hd0. split.
  - intros Hup1 Hup2 Hready.
    rewrite (video_run_recorded_failure detector task_id clip_id urls now w
               Hd0 Hup1 Hup2 Hready).
    rewrite (worker_run_recorded_failure detector td now w Hd0 Hup1 Hup2 Hready).
    split_and!; try reflexivity.
    + simpl. rewrite lookup_insert_ne
        by (apply not_eq_sym, result_key_not_counter, failed_key_is_counter).
      apply lookup_insert_eq.
    + simpl. apply lookup_insert_eq.
  - intros Hd1.
    rewrite (video_run_lost_failure detector task_id clip_id urls now w Hd0 Hd1).
    rewrite (worker_run_lost_failure detector td now w Hd0 Hd1).
    split_and!; reflexivity.
Qed.

Lemma store_failure_outcome_witness :
  down (faults (redis (Sample.four_world [true]))) 0
  /\ fst (Tasks.process_video_screenshots Sample.two_refs "t1" "clip" Sample.four_urls
            Sample.noon (Sample.four_world [true])) = Raise unreachable
  /\ fst (Worker.process_task Sample.two_refs Sample.four_task Sample.noon
            (Sample.four_world [true]))
     = Ok (failed_record "t1" "clip" Sample.four_urls Sample.noon unreachable)
  /\ fst (Worker.process_task Sample.two_refs Sample.four_task Sample.noon
            (Sample.four_world [true; true])) = Raise unreachable.
Proof.
  split; [reflexivity |]. split_and!.
  - apply (proj1 (store_failure_outcome Sample.two_refs "t1" "clip" Sample.four_urls
                    Sample.noon (Sample.four_world [true]) eq_refl));
      reflexivity.
  - apply (proj1 (store_failure_outcome Sample.two_refs "t1" "clip" Sample.four_urls
                    Sample.noon (Sample.four_world [true]) eq_refl));
      reflexivity.
  - apply (proj2 (store_failure_outcome Sample.two_refs "t1" "clip" Sample.four_urls
                    Sample.noon (Sample.four_world [true; true]) eq_refl)).
    reflexivity.
Defined.

(** C1 fails as stated.  While the store stays out of reach, neither
    function writes a record or touches the failed counter; and when the
    store is back for the handler, the stand-alone worker returns
    normally, so nothing is reported to the queue. *)
Lemma unreachable_store_no_record :
  let lost := snd (Tasks.process_video_screenshots Sample.two_refs "t1" "clip"
                     Sample.four_urls Sample.noon (Sample.four_world [true; true])) in
  let lost' := snd (Worker.process_task Sample.two_refs Sample.four_task Sample.noon
                      (Sample.four_world [true; true])) in
  kv (redis lost) !! "result:t1"%string = None
  /\ kv (redis lost) !! "stats:failed:2024-05-01"%string = None
  /\ kv (redis lost') !! "result:t1"%string = None
  /\ kv (redis lost') !! "stats:failed:2024-05-01"%string = None
  /\ Py.returns (fst (Worker.process_task Sample.two_refs Sample.four_task Sample.noon
                        (Sample.four_world [true]))).
Proof. vm_compute. tauto. Qed.

(** ** The size computed by [resize_to_1080p] *)

Section ScaleArithmetic.
Local Open Scope Q_scope.

Lemma inject_le (a b : Z) : (a <= b)%Z <-> inject_Z a <= inject_Z b.
Proof. rewrite Zle_Qle. reflexivity. Qed.

Lemma inject_lt (a b : Z) : (a < b)%Z <-> inject_Z a < inject_Z b.
Proof. rewrite Zlt_Qlt. reflexivity. Qed.

(** The quotient [q = c / D] of a ceiling [c] by a side [D] between 1 and
    2^31. *)
Lemma quotient_bounds (c D q : Q) :
  1080 <= c -> c <= 1920 -> 1 <= D -> D <= 2147483648 -> q * D == c ->
  1 # 4194304 <= q /\ q <= 1920.
Proof.
  intros. assert (0 < q) by nra. split; nra.
Qed.

Lemma quotient_below_one (c D q : Q) :
  0 <= c -> c + 1 <= D -> q * D == c -> q <= 1.
Proof. intros. nra. Qed.

(** A side [D] times a scale [s] that is at most the rounded quotient
    [sq] of the ceiling [c] by [D]. *)
Lemma scaled_side_upper (c D q sq s u : Q) :
  0 < D -> q * D == c -> sq <= q * (1 + u) -> s <= sq -> D * s <= c * (1 + u).
Proof. intros. nra. Qed.

Lemma scaled_side_lower (D s lo : Q) :
  1 <= D -> 0 <= lo -> lo <= s -> lo <= D * s.
Proof. intros. nra. Qed.

Lemma scaled_side_shrinks (D s : Q) : 0 <= D -> s <= 1 -> D * s <= D.
Proof. intros. nra. Qed.

Lemma area_bound (H X : Q) :
  0 <= H -> H <= 2147483648 -> 0 <= X -> X <= 1921 -> H * X <= 2147483648 * 1921.
Proof. intros. nra. Qed.

(** Two sides scaled by the same [s], rounded to [A] and [B] with relative
    error [u], then truncated to [NW] and [NH]. *)
Lemma cross_product_bound (W H s A B NW NH u T : Q) :
  0 < W -> 0 < H -> 0 <= u -> T == H * (W * s) -> 0 <= T ->
  W * s * (1 - u) <= A -> A <= W * s * (1 + u) ->
  H * s * (1 - u) <= B -> B <= H * s * (1 + u) ->
  NW <= A -> A < NW + 1 -> NH <= B -> B < NH + 1 ->
  NW * H - NH * W < 2 * u * T + W /\ - (2 * u * T + H) < NW * H - NH * W.
Proof. intros. split; nra. Qed.

End ScaleArithmetic.

Section Rounding.
Local Open Scope Q_scope.
Context {F : Float64} {L : Float64Laws F}.

Lemma rnd_near (x : Q) :
  1 # 18446744073709551616 <= x -> x <= 18446744073709551616 ->
  x * (1 - (1 # 9007199254740992)) <= rnd x
  /\ rnd x <= x * (1 + (1 # 9007199254740992)).
Proof.
  intros Hlo Hhi.
  pose proof (rnd_rel x Hlo Hhi) as H.
  change (1 # 2 ^ 53) with (1 # 9007199254740992) in H.
  apply Qabs_Qle_condition in H. destruct H as [H1 H2].
  split; lra.
Qed.

Lemma rnd_le_int (x : Q) (n : Z) :
  (Z.abs n <= 2 ^ 53)%Z -> x <= inject_Z n -> rnd x <= inject_Z n.
Proof.
  intros Hn Hx. rewrite <- (rnd_int n Hn). now apply rnd_mono.
Qed.

(** [n * s] as the code computes it, for a side [n] below 2^53. *)
Lemma mul_int_float_rnd (n : Z) (s : Q) :
  (Z.abs n <= 2 ^ 53)%Z -> mul_int_float n s == rnd (inject_Z n * s).
Proof.
  intros Hn. unfold mul_int_float. apply rnd_proper.
  now rewrite (rnd_int n Hn).
Qed.

(** The arithmetic of [resize_to_1080p] on an image that exceeds the
    ceiling. *)
Lemma scaled_size_bounds (h w : Z) :
  (0 < h < 2 ^ 31)%Z -> (0 < w < 2 ^ 31)%Z -> (1080 < h \/ 1920 < w)%Z ->
  forall s : Q,
    s = py_min (rnd (inject_Z 1080 / inject_Z h)) (rnd (inject_Z 1920 / inject_Z w)) ->
    forall nw nh : Z,
      nw = Py.trunc (mul_int_float w s) ->
      nh = Py.trunc (mul_int_float h s) ->
      (0 <= nw <= 1920 /\ 0 <= nh <= 1080 /\ nw <= w /\ nh <= h
       /\ Z.abs (nw * h - nh * w) <= Z.max h w)%Z.
Proof.
  intros Hh Hw Hbig s Hs nw nh Hnw Hnh.
  assert (HH : 1 <= inject_Z h /\ inject_Z h <= 2147483648).
  { split; [apply (proj1 (inject_le 1 h)) | apply (proj1 (inject_le h 2147483648))]; lia. }
  assert (HW : 1 <= inject_Z w /\ inject_Z w <= 2147483648).
  { split; [apply (proj1 (inject_le 1 w)) | apply (proj1 (inject_le w 2147483648))]; lia. }
  assert (Hqh : inject_Z 1080 / inject_Z h * inject_Z h == 1080).
  { change (inject_Z 1080) with 1080. field. lra. }
  assert (Hqw : inject_Z 1920 / inject_Z w * inject_Z w == 1920).
  { change (inject_Z 1920) with 1920. field. lra. }
  pose proof (mul_int_float_rnd w s ltac:(lia)) as EA.
  pose proof (mul_int_float_rnd h s ltac:(lia)) as EB.
  assert (Hsh1 : (1080 < h)%Z -> inject_Z 1080 / inject_Z h <= 1).
  { intros Hb. apply (quotient_below_one 1080 (inject_Z h)); [lra | | exact Hqh].
    apply (proj1 (inject_le 1081 h)). lia. }
  assert (Hsw1 : (1920 < w)%Z -> inject_Z 1920 / inject_Z w <= 1).
  { intros Hb. apply (quotient_below_one 1920 (inject_Z w)); [lra | | exact Hqw].
    apply (proj1 (inject_le 1921 w)). lia. }
  revert Hqh Hqw Hs EA EB Hsh1 Hsw1 Hnw Hnh HH HW.
  generalize (inject_Z 1080 / inject_Z h) as qh.
  generalize (inject_Z 1920 / inject_Z w) as qw.
  intros qw qh Hqh Hqw Hs EA EB Hsh1 Hsw1 Hnw Hnh HH HW.
  destruct (quotient_bounds 1080 (inject_Z h) qh) as [Hqh2 Hqh3]; try lra.
  destruct (quotient_bounds 1920 (inject_Z w) qw) as [Hqw2 Hqw3]; try lra.
  destruct (rnd_near qh) as [Hsh2 Hsh3]; [lra | lra |].
  destruct (rnd_near qw) as [Hsw2 Hsw3]; [lra | lra |].
  assert (Hone : rnd qh <= 1 \/ rnd qw <= 1).
  { destruct Hbig as [Hb | Hb]; [left | right];
      apply (rnd_le_int _ 1); try (simpl; lia); auto. }
  revert Hs Hsh2 Hsh3 Hsw2 Hsw3 Hone.
  generalize (rnd qh) as sh. generalize (rnd qw) as sw.
  intros sw sh Hs Hsh2 Hsh3 Hsw2 Hsw3 Hone.
  assert (Hsle : s <= sh /\ s <= sw /\ 1 # 8388608 <= s).
  { destruct (py_min_cases sh sw) as [[E Hlt] | [E Hle]]; rewrite Hs, E; lra. }
  destruct Hsle as (Hs1 & Hs2 & Hs0).
  assert (Hs3 : s <= 1) by (destruct Hone; lra).
  clear Hs Hone.
  (* the two products before rounding *)
  pose proof (scaled_side_upper 1920 (inject_Z w) qw sw s _ ltac:(lra) Hqw Hsw3 Hs2) as HX2.
  pose proof (scaled_side_upper 1080 (inject_Z h) qh sh s _ ltac:(lra) Hqh Hsh3 Hs1) as HY2.
  pose proof (scaled_side_lower (inject_Z w) s (1 # 8388608) ltac:(lra) ltac:(lra) Hs0) as HX1.
  pose proof (scaled_side_lower (inject_Z h) s (1 # 8388608) ltac:(lra) ltac:(lra) Hs0) as HY1.
  pose proof (scaled_side_shrinks (inject_Z w) s ltac:(lra) Hs3) as HX3.
  pose proof (scaled_side_shrinks (inject_Z h) s ltac:(lra) Hs3) as HY3.
  pose proof (area_bound (inject_Z h) (inject_Z w * s) ltac:(lra) ltac:(lra)
                ltac:(lra) ltac:(lra)) as HT.
  destruct (rnd_near (inject_Z w * s)) as [HA1 HA2]; [lra | lra |].
  destruct (rnd_near (inject_Z h * s)) as [HB1 HB2]; [lra | lra |].
  pose proof (rnd_le_int (inject_Z w * s) w ltac:(lia) HX3) as HAW.
  pose proof (rnd_le_int (inject_Z h * s) h ltac:(lia) HY3) as HBH.
  destruct (trunc_bounds (mul_int_float w s)) as (Hnw0 & Hnw1 & Hnw2); [lra|].
  destruct (trunc_bounds (mul_int_float h s)) as (Hnh0 & Hnh1 & Hnh2); [lra|].
  rewrite <- Hnw in *. rewrite <- Hnh in *.
  rewrite inject_Z_plus in Hnw2, Hnh2.
  change (inject_Z 1) with 1 in *.
  rewrite EA in Hnw1, Hnw2. rewrite EB in Hnh1, Hnh2.
  clear EA EB Hnw Hnh.
  revert HA1 HA2 HB1 HB2 HAW HBH Hnw1 Hnw2 Hnh1 Hnh2.
  generalize (rnd (inject_Z w * s)) as A. generalize (rnd (inject_Z h * s)) as B.
  intros B A HA1 HA2 HB1 HB2 HAW HBH Hnw1 Hnw2 Hnh1 Hnh2.
  destruct (cross_product_bound (inject_Z w) (inject_Z h) s A B
              (inject_Z nw) (inject_Z nh) (1 # 9007199254740992)
              (inject_Z h * (inject_Z w * s)))
    as [Hq5 Hq6]; try lra; try reflexivity.
  { apply Qmult_le_0_compat; lra. }
  assert (Hq1 : inject_Z nw < inject_Z 1921) by (change (inject_Z 1921) with 1921; lra).
  assert (Hq2 : inject_Z nh < inject_Z 1081) by (change (inject_Z 1081) with 1081; lra).
  assert (Hq3 : inject_Z nw <= inject_Z w) by lra.
  assert (Hq4 : inject_Z nh <= inject_Z h) by lra.
  assert (Hq7 : inject_Z (nw * h - nh * w) < inject_Z (w + 1)).
  { unfold Z.sub. rewrite !inject_Z_plus, inject_Z_opp, !inject_Z_mult.
    change (inject_Z 1) with 1. lra. }
  assert (Hq8 : inject_Z (- (h + 1)) < inject_Z (nw * h - nh * w)).
  { unfold Z.sub. rewrite !inject_Z_opp, !inject_Z_plus, inject_Z_opp, !inject_Z_mult.
    change (inject_Z 1) with 1. lra. }
  apply inject_lt in Hq1, Hq2, Hq7, Hq8. apply inject_le in Hq3, Hq4.
  lia.
Qed.
End Rounding.

Lemma exact_laws : Float64Laws Sample.exact.
Proof.
  split.
  - intros x y Hxy. exact Hxy.
  - intros x y Hxy. exact Hxy.
  - intros n _. reflexivity.
  - intros x Hlo _. cbn [rnd Sample.exact].
    assert (Hx : (x - x == 0)%Q) by ring.
    rewrite (Qabs_wd _ _ Hx). change (Qabs 0) with 0%Q.
    apply Qmult_le_0_compat; [discriminate|].
    eapply Qle_trans; [|exact Hlo]. discriminate.
Qed.

Lemma sample_cv_laws : Cv2Laws Sample.cv.
Proof.
  split. intros img w h out. simpl.
  destruct ((w <=? 0) || (h <=? 0)); [discriminate|].
  intros [= <-]. split; reflexivity.
Qed.

(** C6, as the code has it: an image within 1920 x 1080 is returned as it
    is.  A larger one is resized to the size
    [(int(width * s), int(height * s))] for the single factor
    [s = min(1080 / height, 1920 / width)]; that size fits the ceiling and
    does not exceed the size of the input, and the proportions are kept up
    to the truncation of each side to whole pixels: the products
    [new_width * height] and [new_height * width] differ by at most the
    longer side of the input. *)
Theorem resize_to_1080p_fits {cv : Cv2} {CL : Cv2Laws cv}
  {F : Float64} {L : Float64Laws F} (img : image) :
  (shape0 img <= 1080 -> shape1 img <= 1920 -> resize_to_1080p img = Ok img)
  /\ (0 < shape0 img < 2 ^ 31 -> 0 < shape1 img < 2 ^ 31 ->
      1080 < shape0 img \/ 1920 < shape1 img ->
      exists (s : Q) (nw nh : Z),
        s = py_min (rnd (inject_Z 1080 / inject_Z (shape0 img)))
                   (rnd (inject_Z 1920 / inject_Z (shape1 img)))
        /\ nw = Py.trunc (mul_int_float (shape1 img) s)
        /\ nh = Py.trunc (mul_int_float (shape0 img) s)
        /\ resize_to_1080p img = resize img (nw, nh)
        /\ 0 <= nw <= 1920 /\ 0 <= nh <= 1080
        /\ nw <= shape1 img /\ nh <= shape0 img
        /\ Z.abs (nw * shape0 img - nh * shape1 img)
           <= Z.max (shape0 img) (shape1 img)
        /\ forall out, resize_to_1080p img = Ok out ->
                       shape0 out = nh /\ shape1 out = nw).
Proof.
  split.
  - intros Hh Hw. unfold resize_to_1080p.
    destruct (Z.leb_spec (shape0 img) 1080); [|lia].
    destruct (Z.leb_spec (shape1 img) 1920); [|lia]. reflexivity.
  - intros Hh Hw Hbig.
    eexists _, _, _. split; [reflexivity|]. split; [reflexivity|].
    split; [reflexivity|].
    assert (Hrun :
      resize_to_1080p img
      = resize img
          (Py.trunc (mul_int_float (shape1 img)
                       (py_min (rnd (inject_Z 1080 / inject_Z (shape0 img)))
                               (rnd (inject_Z 1920 / inject_Z (shape1 img))))),
           Py.trunc (mul_int_float (shape0 img)
                       (py_min (rnd (inject_Z 1080 / inject_Z (shape0 img)))
                               (rnd (inject_Z 1920 / inject_Z (shape1 img))))))).
    { unfold resize_to_1080p, truediv.
      destruct (Z.leb_spec (shape0 img) 1080) as [H1|H1];
        destruct (Z.leb_spec (shape1 img) 1920) as [H2|H2]; simpl; try lia;
        destruct (Z.eqb_spec (shape0 img) 0); try lia;
        destruct (Z.eqb_spec (shape1 img) 0); try lia; reflexivity. }
    split; [exact Hrun|].
    pose proof (scaled_size_bounds (shape0 img) (shape1 img) Hh Hw Hbig _ eq_refl
                  _ _ eq_refl eq_refl) as ([B0 B1] & [B2 B3] & B4 & B5 & B6).
    split_and!; try assumption.
    intros out Hout. rewrite Hrun in Hout. now apply resize_shape in Hout.
Qed.

Lemma resize_to_1080p_fits_witness :
  (0 < shape0 (Sample.solid 2160 3840 7) < 2 ^ 31
   /\ 0 < shape1 (Sample.solid 2160 3840 7) < 2 ^ 31
   /\ (1080 < shape0 (Sample.solid 2160 3840 7)
       \/ 1920 < shape1 (Sample.solid 2160 3840 7)))
  /\ (resize_to_1080p (Sample.solid 1080 1920 7) = Ok (Sample.solid 1080 1920 7))
  /\ exists (s : Q) (nw nh : Z),
      s = py_min (rnd (inject_Z 1080 / inject_Z (shape0 (Sample.solid 2160 3840 7))))
                 (rnd (inject_Z 1920 / inject_Z (shape1 (Sample.solid 2160 3840 7))))
      /\ nw = Py.trunc (mul_int_float (shape1 (Sample.solid 2160 3840 7)) s)
      /\ nh = Py.trunc (mul_int_float (shape0 (Sample.solid 2160 3840 7)) s)
      /\ resize_to_1080p (Sample.solid 2160 3840 7)
         = resize (Sample.solid 2160 3840 7) (nw, nh)
      /\ 0 <= nw <= 1920 /\ 0 <= nh <= 1080
      /\ nw <= shape1 (Sample.solid 2160 3840 7)
      /\ nh <= shape0 (Sample.solid 2160 3840 7)
      /\ Z.abs (nw * shape0 (Sample.solid 2160 3840 7)
                - nh * shape1 (Sample.solid 2160 3840 7))
         <= Z.max (shape0 (Sample.solid 2160 3840 7)) (shape1 (Sample.solid 2160 3840 7))
      /\ forall out, resize_to_1080p (Sample.solid 2160 3840 7) = Ok out ->
                     shape0 out = nh /\ shape1 out = nw.
Proof.
  split; [simpl; lia |]. split.
  - apply (proj1 (resize_to_1080p_fits (CL := sample_cv_laws) (L := exact_laws)
                    (Sample.solid 1080 1920 7))); simpl; lia.
  - apply (proj2 (resize_to_1080p_fits (CL := sample_cv_laws) (L := exact_laws)
                    (Sample.solid 2160 3840 7))); simpl; lia.
Defined.

(** C6 fails as stated: a 3840 x 3 strip is resized to 1920 x 1, twice as
    elongated as the input (the factor is 1/2 and 3/2 truncates to 1; every
    operation here is exact in binary64 as well). *)
Lemma thin_strip_changes_proportions :
  exists out,
    resize_to_1080p (Sample.solid 3 3840 7) = Ok out
    /\ shape1 out = 1920 /\ shape0 out = 1
    /\ shape1 out * shape0 (Sample.solid 3 3840 7)
       <> shape0 out * shape1 (Sample.solid 3 3840 7).
Proof.
  eexists. split; [vm_compute; reflexivity |].
  split_and!; [reflexivity | reflexivity | simpl; lia].
Qed.

(** * Further properties of the code *)

(** ** The region string *)









(** ** The reference library *)

Section Library.
Context {cv : Cv2}.

Lemma dict_set_keys {V : Type} (k : string) (v : V) (d : list (string * V)) :
  forall k', In k' (map fst (dict_set k v d)) <-> k' = k \/ In k' (map fst d).
Proof.
  induction d as [|[k0 v0] d IH]; intros k'; simpl.
  - split; [intros [<- | []]; now left | intros [-> | []]; now left].
  - destruct (String.eqb_spec k0 k) as [-> | Hne]; simpl.
    + split; [intros [<- | H]; auto | intros [-> | [<- | H]]; auto].
    + rewrite IH. split.
      * intros [<- | [-> | H]]; auto.
      * intros [-> | [<- | H]]; auto.
Qed.

Lemma dict_set_nodup {V : Type} (k : string) (v : V) (d : list (string * V)) :
  List.NoDup (map fst d) -> List.NoDup (map fst (dict_set k v d)).
Proof.
  induction d as [|[k0 v0] d IH]; intros Hd; simpl.
  - constructor; [intros [] | constructor].
  - inversion Hd as [|? ? Hnotin Hrest]; subst.
    destruct (String.eqb_spec k0 k) as [-> | Hne]; simpl.
    + now constructor.
    + constructor; [|now apply IH].
      rewrite dict_set_keys. intros [-> | Hin]; [congruence | contradiction].
Qed.

Lemma dict_set_items {V : Type} (k : string) (v : V) (d : list (string * V)) :
  forall k' v', In (k', v') (dict_set k v d) ->
                (k' = k /\ v' = v) \/ In (k', v') d.
Proof.
  induction d as [|[k0 v0] d IH]; intros k' v'; simpl.
  - intros [[= <- <-] | []]. now left.
  - destruct (String.eqb_spec k0 k) as [-> | Hne]; simpl.
    + intros [[= <- <-] | H]; [now left | now right; right].
    + intros [H | H]; [now right; left|].
      apply IH in H. tauto.
Qed.

Lemma load_files_spec (stems : list string) :
  forall acc,
    List.NoDup (map fst acc) ->
    (forall name img, In (name, img) acc -> imread (portrait_path name) = Some img) ->
    List.NoDup (map fst (load_files stems acc))
    /\ (forall name img, In (name, img) (load_files stems acc) ->
                         imread (portrait_path name) = Some img)
    /\ (forall name, In name (map fst (load_files stems acc))
                     <-> In name (map fst acc)
                         \/ (In name stems /\ imread (portrait_path name) <> None)).
Proof.
  induction stems as [|stem rest IH]; intros acc Hnd Hacc; simpl.
  - split_and!; [exact Hnd | exact Hacc | intros name; tauto].
  - destruct (imread (portrait_path stem)) as [img|] eqn:Hread.
    + destruct (IH (dict_set stem img acc)) as (H1 & H2 & H3).
      * now apply dict_set_nodup.
      * intros name img' Hin. apply dict_set_items in Hin.
        destruct Hin as [[-> ->] | Hin]; [exact Hread | now apply Hacc].
      * split_and!; [exact H1 | exact H2 |].
        intros name. rewrite H3, dict_set_keys. split.
        -- intros [[-> | Hin] | [Hin Hok]]; auto.
           right. split; [now left | congruence].
        -- intros [Hin | [[<- | Hin] Hok]]; auto.
    + destruct (IH acc Hnd Hacc) as (H1 & H2 & H3).
      split_and!; [exact H1 | exact H2 |].
      intros name. rewrite H3. split.
      * intros [Hin | [Hin Hok]]; auto.
      * intros [Hin | [[<- | Hin] Hok]]; auto. congruence.
Qed.

End Library.

(** X2: the loaded library has one entry per name; its names are exactly
    the stems of the files that decode, each with the image read from its
    file; a file that does not decode is skipped; and a missing directory
    gives an empty library and is created. *)
Theorem reference_library_contents {cv : Cv2} (fs : portraits_fs) :
  List.NoDup (map fst (fst (load_reference_portraits fs)))
  /\ (forall name img,
         In (name, img) (fst (load_reference_portraits fs)) ->
         imread (portrait_path name) = Some img)
  /\ (forall name,
         In name (map fst (fst (load_reference_portraits fs)))
         <-> exists stems, fs = Some stems /\ In name stems
                           /\ imread (portrait_path name) <> None)
  /\ (fs = None -> load_reference_portraits fs = ([], Some []))
  /\ (forall stems, fs = Some stems -> snd (load_reference_portraits fs) = fs).
Proof.
  destruct fs as [stems|]; simpl.
  - destruct (load_files_spec stems []) as (H1 & H2 & H3);
      [constructor | intros ? ? [] |].
    split_and!; try assumption; try discriminate; try reflexivity.
    intros name. rewrite H3. split.
    + intros [[] | [Hin Hok]]. exists stems. auto.
    + intros (stems' & [= <-] & Hin & Hok). auto.
  - split_and!; try reflexivity; try discriminate.
    + constructor.
    + intros ? ? [].
    + intros name. split; [intros [] | intros (stems & [=] & _)].
Qed.

Lemma reference_library_contents_witness :
  load_reference_portraits None = ([], Some [])
  /\ snd (load_reference_portraits (Some ["wraith"; "broken"; "wraith"]%string))
     = Some ["wraith"; "broken"; "wraith"]%string.
Proof.
  split.
  - apply (proj1 (proj2 (proj2 (proj2 (reference_library_contents None))))).
    reflexivity.
  - apply (proj2 (proj2 (proj2 (proj2 (reference_library_contents
                                         (Some ["wraith"; "broken"; "wraith"]%string)))))
             ["wraith"; "broken"; "wraith"]%string).
    reflexivity.
Defined.

(** ** The champion of one screenshot *)

Section Champion.
Context {cv : Cv2} {F : Float64}.

(** The loop raises as soon as one reference cannot be compared. *)
Lemma scan_references_raises portrait u refs :
  forall bm hc name ref,
    In (name, ref) refs ->
    Py.raises (calculate_similarity portrait ref) ->
    Py.raises (scan_references portrait u refs bm hc).
Proof.
  induction refs as [|[n r] rest IH]; intros bm hc name ref Hin Hbad; [destruct Hin|].
  simpl. destruct (calculate_similarity portrait r) as [c|e] eqn:Hc; simpl; [|exact I].
  destruct Hin as [[= -> ->] | Hin]; [rewrite Hc in Hbad; contradiction|].
  destruct (Qltb hc c); now apply (IH _ _ name ref).
Qed.

Lemma scan_references_returns portrait u refs :
  forall bm hc,
    (forall name ref, In (name, ref) refs ->
                      Py.returns (calculate_similarity portrait ref)) ->
    Py.returns (scan_references portrait u refs bm hc).
Proof.
  induction refs as [|[n r] rest IH]; intros bm hc Hall; [exact I|].
  simpl. pose proof (Hall n r (or_introl eq_refl)) as Hr.
  destruct (calculate_similarity portrait r) as [c|e]; [|contradiction]. simpl.
  destruct (Qltb hc c); apply IH; intros name ref Hin; apply (Hall name ref); now right.
Qed.

(** The loop either keeps the champion it started from, and then no
    reference scores above the running maximum; or it ends on the first
    reference of highest score. *)
Lemma scan_references_spec portrait u refs :
  forall bm hc bm' hc',
    scan_references portrait u refs bm hc = Ok (bm', hc') ->
    (bm' = bm /\ hc' = hc
     /\ forall (j : nat) n r, refs !! j = Some (n, r) ->
          exists c, calculate_similarity portrait r = Ok c /\ (c <= hc)%Q)
    \/ (exists (k : nat) n r,
           refs !! k = Some (n, r)
           /\ calculate_similarity portrait r = Ok hc'
           /\ bm' = Some {| character_name := n; confidence := hc';
                            url := u; screenshot_index := None |}
           /\ (hc < hc')%Q
           /\ (forall (j : nat) n' r', refs !! j = Some (n', r') ->
                 exists c, calculate_similarity portrait r' = Ok c
                           /\ (c <= hc')%Q /\ ((j < k)%nat -> (c < hc')%Q))).
Proof.
  induction refs as [|[n r] rest IH]; intros bm hc bm' hc' Hrun.
  - simpl in Hrun. inversion Hrun; subst. left. split_and!; try reflexivity.
    intros j n r Hj. discriminate.
  - simpl in Hrun.
    destruct (calculate_similarity portrait r) as [c|e] eqn:Hc; simpl in Hrun;
      [|discriminate].
    destruct (Qltb hc c) eqn:Hcmp.
    + apply Qltb_lt in Hcmp. apply IH in Hrun.
      destruct Hrun as [(-> & -> & Hall) | (k & n' & r' & Hk & Hsim & -> & Hlt & Hall)].
      * right. exists 0%nat, n, r.
        split_and!; [reflexivity | exact Hc | reflexivity | exact Hcmp |].
        intros [|j] n' r' Hj; simpl in Hj.
        -- inversion Hj; subst. exists c. split_and!; [exact Hc | apply Qle_refl | lia].
        -- destruct (Hall j n' r' Hj) as (c' & Hc' & Hle).
           exists c'. split_and!; [exact Hc' | exact Hle | lia].
      * right. exists (S k), n', r'.
        split_and!; [exact Hk | exact Hsim | reflexivity
                    | eapply Qlt_trans; [exact Hcmp | exact Hlt] |].
        intros [|j] n'' r'' Hj; simpl in Hj.
        -- inversion Hj; subst. exists c.
           split_and!; [exact Hc | now apply Qlt_le_weak | intros _; exact Hlt].
        -- destruct (Hall j n'' r'' Hj) as (c' & Hc' & Hle & Hbefore).
           exists c'. split_and!; [exact Hc' | exact Hle | intros; apply Hbefore; lia].
    + apply Qltb_ge in Hcmp. apply IH in Hrun.
      destruct Hrun as [(-> & -> & Hall) | (k & n' & r' & Hk & Hsim & -> & Hlt & Hall)].
      * left. split_and!; try reflexivity.
        intros [|j] n' r' Hj; simpl in Hj.
        -- inversion Hj; subst. exists c. split; [exact Hc | exact Hcmp].
        -- exact (Hall j n' r' Hj).
      * right. exists (S k), n', r'.
        split_and!; [exact Hk | exact Hsim | reflexivity | exact Hlt |].
        intros [|j] n'' r'' Hj; simpl in Hj.
        -- inversion Hj; subst. exists c.
           split_and!; [exact Hc | apply Qlt_le_weak | intros _];
             (eapply Qle_lt_trans; [exact Hcmp | exact Hlt]).
        -- destruct (Hall j n'' r'' Hj) as (c' & Hc' & Hle & Hbefore).
           exists c'. split_and!; [exact Hc' | exact Hle | intros; apply Hbefore; lia].
Qed.

(** What [process_screenshot_url] does once the portrait is cut out. *)
Lemma process_screenshot_url_scan self u net img img' portrait :
  fst (download_image u net) = Some img ->
  resize_to_1080p img = Ok img' ->
  extract_portrait_from_image self img' = Ok portrait ->
  fst (process_screenshot_url self u net)
  = match scan_references portrait u (reference_portraits self) None 0%Q with
    | Ok (best_match, highest) =>
        if Qle_bool (min_confidence self) highest then best_match else None
    | Raise _ => None
    end.
Proof.
  intros Hdl Hrs Hex. unfold process_screenshot_url.
  destruct (download_image u net) as [oimg net']. simpl in Hdl. subst oimg. simpl.
  unfold detect_in_image. rewrite Hrs. simpl. rewrite Hex. simpl.
  destruct (scan_references portrait u (reference_portraits self) None 0%Q)
    as [[bm hc]|]; reflexivity.
Qed.

Lemma process_screenshot_url_portrait self u net m :
  fst (process_screenshot_url self u net) = Some m ->
  exists img img' portrait,
    fst (download_image u net) = Some img
    /\ resize_to_1080p img = Ok img'
    /\ extract_portrait_from_image self img' = Ok portrait.
Proof.
  unfold process_screenshot_url.
  destruct (download_image u net) as [[img|] net']; simpl; [|discriminate].
  unfold detect_in_image.
  destruct (resize_to_1080p img) as [img'|] eqn:Hrs; simpl; [|discriminate].
  destruct (extract_portrait_from_image self img') as [p|] eqn:Hex; simpl;
    [|discriminate].
  intros _. now exists img, img', p.
Qed.

End Champion.

(** X6: the match returned for a screenshot names the first reference of
    highest similarity to the extracted portrait: its confidence is that
    reference's score, every reference was compared without error and
    scores no higher, and every reference before it in the library scores
    strictly lower. *)
Theorem screenshot_champion_is_first_best {cv : Cv2} {F : Float64}
  (self : ApexDetector) (u : string) (net : network) (m : match_dict) :
  fst (process_screenshot_url self u net) = Some m ->
  exists img img' portrait (k : nat) ref,
    fst (download_image u net) = Some img
    /\ resize_to_1080p img = Ok img'
    /\ extract_portrait_from_image self img' = Ok portrait
    /\ reference_portraits self !! k = Some (character_name m, ref)
    /\ calculate_similarity portrait ref = Ok (confidence m)
    /\ forall (j : nat) name' ref',
        reference_portraits self !! j = Some (name', ref') ->
        exists c, calculate_similarity portrait ref' = Ok c
                  /\ (c <= confidence m)%Q
                  /\ ((j < k)%nat -> (c < confidence m)%Q).
Proof.
  intros Hm.
  destruct (process_screenshot_url_portrait self u net m Hm)
    as (img & img' & portrait & Hdl & Hrs & Hex).
  rewrite (process_screenshot_url_scan self u net img img' portrait Hdl Hrs Hex) in Hm.
  destruct (scan_references portrait u (reference_portraits self) None 0%Q)
    as [[bm hc]|] eqn:Hscan; [|discriminate].
  destruct (Qle_bool (min_confidence self) hc); [|discriminate]. subst bm.
  apply scan_references_spec in Hscan.
  destruct Hscan as [([=] & _) | (k & n & r & Hk & Hsim & [= ->] & _ & Hall)].
  exists img, img', portrait, k, r. simpl. split_and!; try assumption.
Qed.

Lemma screenshot_champion_is_first_best_witness :
  fst (process_screenshot_url Sample.two_refs "u"
         (Sample.quiet_net [Sample.shot Byte.xc8])) = Some (Fixtures.wraith_seen "u")
  /\ exists img img' portrait (k : nat) ref,
      fst (download_image "u" (Sample.quiet_net [Sample.shot Byte.xc8])) = Some img
      /\ resize_to_1080p img = Ok img'
      /\ extract_portrait_from_image Sample.two_refs img' = Ok portrait
      /\ reference_portraits Sample.two_refs !! k
         = Some (character_name (Fixtures.wraith_seen "u"), ref)
      /\ calculate_similarity portrait ref = Ok (confidence (Fixtures.wraith_seen "u"))
      /\ forall (j : nat) name' ref',
          reference_portraits Sample.two_refs !! j = Some (name', ref') ->
          exists c, calculate_similarity portrait ref' = Ok c
                    /\ (c <= confidence (Fixtures.wraith_seen "u"))%Q
                    /\ ((j < k)%nat -> (c < confidence (Fixtures.wraith_seen "u"))%Q).
Proof.
  split; [vm_compute; reflexivity |].
  apply (screenshot_champion_is_first_best Sample.two_refs "u"
           (Sample.quiet_net [Sample.shot Byte.xc8]) (Fixtures.wraith_seen "u")).
  vm_compute; reflexivity.
Defined.

(** X7: one reference that cannot be compared with the extracted portrait
    silences the screenshot, whatever the other references score. *)
Theorem unusable_reference_drops_screenshot {cv : Cv2} {F : Float64}
  (self : ApexDetector) (u : string) (net : network)
  (img img' portrait : image) (name : string) (ref : image) :
  fst (download_image u net) = Some img ->
  resize_to_1080p img = Ok img' ->
  extract_portrait_from_image self img' = Ok portrait ->
  In (name, ref) (reference_portraits self) ->
  Py.raises (calculate_similarity portrait ref) ->
  fst (process_screenshot_url self u net) = None.
Proof.
  intros Hdl Hrs Hex Hin Hbad.
  rewrite (process_screenshot_url_scan self u net img img' portrait Hdl Hrs Hex).
  pose proof (scan_references_raises portrait u (reference_portraits self)
                None 0%Q name ref Hin Hbad) as Hr.
  now destruct (scan_references portrait u (reference_portraits self) None 0%Q).
Qed.

Lemma unusable_reference_drops_screenshot_witness :
  Py.raises (calculate_similarity
               (getslice (Sample.solid 1072 1920 200) 955 (955 + 66) 90 (90 + 0))
               (Sample.solid 66 77 200))
  /\ fst (process_screenshot_url Fixtures.flat_region "u"
            (Sample.quiet_net [Sample.shot Byte.xc8])) = None.
Proof.
  split; [exact I |].
  apply (unusable_reference_drops_screenshot Fixtures.flat_region "u"
           (Sample.quiet_net [Sample.shot Byte.xc8])
           (Sample.solid 1072 1920 200) (Sample.solid 1072 1920 200)
           (getslice (Sample.solid 1072 1920 200) 955 (955 + 66) 90 (90 + 0))
           "wraith" (Sample.solid 66 77 200)).
  - reflexivity.
  - reflexivity.
  - reflexivity.
  - left. reflexivity.
  - exact I.
Defined.

(** X8: when every reference can be compared and one of them scores above
    0 and at or above the floor, the screenshot returns a match, of at
    least that score. *)
Theorem confident_reference_is_reported {cv : Cv2} {F : Float64}
  (self : ApexDetector) (u : string) (net : network)
  (img img' portrait : image) (name : string) (ref : image) (c : Q) :
  fst (download_image u net) = Some img ->
  resize_to_1080p img = Ok img' ->
  extract_portrait_from_image self img' = Ok portrait ->
  (forall name' ref', In (name', ref') (reference_portraits self) ->
                      Py.returns (calculate_similarity portrait ref')) ->
  In (name, ref) (reference_portraits self) ->
  calculate_similarity portrait ref = Ok c ->
  (0 < c)%Q -> (min_confidence self <= c)%Q ->
  exists m, fst (process_screenshot_url self u net) = Some m
            /\ (c <= confidence m)%Q.
Proof.
  intros Hdl Hrs Hex Hall Hin Hc Hpos Hfloor.
  rewrite (process_screenshot_url_scan self u net img img' portrait Hdl Hrs Hex).
  pose proof (scan_references_returns portrait u (reference_portraits self)
                None 0%Q Hall) as Hret.
  destruct (scan_references portrait u (reference_portraits self) None 0%Q)
    as [[bm hc]|] eqn:Hscan; [|contradiction].
  apply list_elem_of_In, list_elem_of_lookup in Hin. destruct Hin as [j Hj].
  apply scan_references_spec in Hscan.
  destruct Hscan as [(-> & -> & Hle) | (k & n & r & Hk & Hsim & -> & _ & Hle)].
  - destruct (Hle j name ref Hj) as (c' & Hc' & Hc0).
    rewrite Hc in Hc'. inversion Hc'; subst c'.
    exfalso. exact (Qlt_not_le _ _ Hpos Hc0).
  - destruct (Hle j name ref Hj) as (c' & Hc' & Hchc & _).
    rewrite Hc in Hc'. inversion Hc'; subst c'.
    assert (Hok : Qle_bool (min_confidence self) hc = true).
    { apply Qle_bool_iff. eapply Qle_trans; [exact Hfloor | exact Hchc]. }
    rewrite Hok. eexists. split; [reflexivity | exact Hchc].
Qed.

Lemma confident_reference_is_reported_witness :
  exists m,
    fst (process_screenshot_url Sample.two_refs "u"
           (Sample.quiet_net [Sample.shot Byte.xbe])) = Some m
    /\ (47143125 # 49744125 <= confidence m)%Q.
Proof.
  apply (confident_reference_is_reported Sample.two_refs "u"
           (Sample.quiet_net [Sample.shot Byte.xbe])
           (Sample.solid 1072 1920 190) (Sample.solid 1072 1920 190)
           (getslice (Sample.solid 1072 1920 190) 955 (955 + 66) 90 (90 + 77))
           "wraith" (Sample.solid 66 77 200)).
  - reflexivity.
  - reflexivity.
  - reflexivity.
  - intros name' ref' [Hin | [Hin | []]]; inversion Hin; subst; exact I.
  - left. reflexivity.
  - vm_compute. reflexivity.
  - reflexivity.
  - vm_compute. discriminate.
Defined.

(** X9: with an empty reference library no screenshot and no batch ever
    returns a match. *)
Theorem empty_library_no_match {cv : Cv2} {F : Float64} (self : ApexDetector) :
  reference_portraits self = [] ->
  (forall u net, fst (process_screenshot_url self u net) = None)
  /\ (forall urls net, fst (process_multiple_screenshots self urls net) = None).
Proof.
  intros Hempty.
  assert (Hone : forall u net, fst (process_screenshot_url self u net) = None).
  { intros u net.
    destruct (fst (process_screenshot_url self u net)) as [m|] eqn:Hm; [|reflexivity].
    exfalso.
    destruct (process_screenshot_url_portrait self u net m Hm)
      as (img & img' & portrait & Hdl & Hrs & Hex).
    rewrite (process_screenshot_url_scan self u net img img' portrait Hdl Hrs Hex) in Hm.
    rewrite Hempty in Hm. simpl in Hm.
    destruct (Qle_bool (min_confidence self) 0); discriminate. }
  split; [exact Hone|].
  intros urls net.
  destruct (fst (process_multiple_screenshots self urls net)) as [m|] eqn:Hm;
    [|reflexivity].
  exfalso. apply process_multiple_screenshots_some in Hm.
  destruct Hm as (k & r & Hk & _).
  apply gather_lookup in Hk. destruct Hk as (u' & _ & Hval).
  rewrite Hone in Hval. discriminate.
Qed.

Lemma empty_library_no_match_witness :
  reference_portraits Fixtures.no_refs = []
  /\ fst (process_multiple_screenshots Fixtures.no_refs Sample.four_urls
            Sample.four_answers) = None.
Proof.
  split; [reflexivity |].
  apply (proj2 (empty_library_no_match Fixtures.no_refs eq_refl)).
Defined.

(** ** Longer batches *)

Section Longer.
Context {cv : Cv2} {F : Float64}.
Variable self : ApexDetector.

Lemma gather_app urls more : forall net,
  fst (gather self (urls ++ more) net)
  = fst (gather self urls net) ++ fst (gather self more (net_after net urls)).
Proof.
  induction urls as [|u rest IH]; intros net.
  - simpl. now rewrite net_after_nil.
  - change ((u :: rest) ++ more) with (u :: (rest ++ more)).
    rewrite !gather_cons. simpl. rewrite IH. now rewrite net_after_app.
Qed.

Lemma process_multiple_screenshots_is_some urls net (j : nat) r :
  fst (gather self urls net) !! j = Some (Val (Some r)) ->
  exists m, fst (process_multiple_screenshots self urls net) = Some m.
Proof.
  intros Hj.
  destruct (fst (process_multiple_screenshots self urls net)) as [m|] eqn:Hm;
    [now exists m|].
  exfalso. exact (process_multiple_screenshots_none self urls net Hm j r Hj).
Qed.

End Longer.

(** X10: screenshots appended to a batch leave the winner as it is, index
    included, unless one of them has a strictly higher confidence, and
    then the new winner is one of the appended screenshots. *)
Theorem appended_screenshots_only_improve {cv : Cv2} {F : Float64}
  (self : ApexDetector) (urls more : list string) (net : network) (m : match_dict) :
  fst (process_multiple_screenshots self urls net) = Some m ->
  exists m',
    fst (process_multiple_screenshots self (urls ++ more) net) = Some m'
    /\ (m' = m
        \/ ((confidence m < confidence m')%Q
            /\ exists k : nat, screenshot_index m' = Some (Z.of_nat k)
                               /\ (length urls <= k)%nat)).
Proof.
  intros Hm. apply process_multiple_screenshots_some in Hm.
  destruct Hm as (k & r & Hk & -> & Hmax & Hfirst).
  assert (Hk' : fst (gather self (urls ++ more) net) !! k = Some (Val (Some r))).
  { rewrite gather_app. now apply lookup_app_l_Some. }
  destruct (process_multiple_screenshots_is_some self _ _ _ _ Hk') as [m' Hm'].
  exists m'. split; [exact Hm'|].
  apply process_multiple_screenshots_some in Hm'.
  destruct Hm' as (k' & r' & Hk2 & -> & Hmax' & Hfirst').
  assert (Hlen : length (fst (gather self urls net)) = length urls)
    by apply gather_length.
  destruct (Nat.lt_ge_cases k' (length urls)) as [Hin | Hout].
  - left.
    assert (Hk2s : fst (gather self urls net) !! k' = Some (Val (Some r'))).
    { rewrite gather_app, lookup_app_l in Hk2 by lia. exact Hk2. }
    destruct (Nat.lt_trichotomy k k') as [Hlt | [Heq | Hgt]].
    + exfalso. pose proof (Hfirst' k r Hlt Hk') as H1.
      pose proof (Hmax k' r' Hk2s) as H2. exact (Qlt_not_le _ _ H1 H2).
    + subst k'. rewrite Hk in Hk2s. now inversion Hk2s.
    + exfalso. pose proof (Hfirst k' r' Hgt Hk2s) as H1.
      pose proof (Hmax' k r Hk') as H2. exact (Qlt_not_le _ _ H1 H2).
  - right. simpl. split.
    + apply Hfirst' with (j := k); [|exact Hk'].
      apply lookup_lt_Some in Hk. lia.
    + exists k'. split; [reflexivity | lia].
Qed.

Lemma appended_screenshots_only_improve_witness :
  fst (process_multiple_screenshots Sample.two_refs ["u0"]%string Sample.four_answers)
  = Some Fixtures.wraith_at_0
  /\ exists m',
      fst (process_multiple_screenshots Sample.two_refs
             (["u0"]%string ++ ["u1"; "u2"; "u3"]%string) Sample.four_answers) = Some m'
      /\ (m' = Fixtures.wraith_at_0
          \/ ((confidence Fixtures.wraith_at_0 < confidence m')%Q
              /\ exists k : nat, screenshot_index m' = Some (Z.of_nat k)
                                 /\ (length ["u0"%string] <= k)%nat)).
Proof.
  split; [vm_compute; reflexivity |].
  apply (appended_screenshots_only_improve Sample.two_refs ["u0"]%string
           ["u1"; "u2"; "u3"]%string Sample.four_answers Fixtures.wraith_at_0).
  vm_compute; reflexivity.
Defined.

(** ** More on the resized size *)

Section CeilingArithmetic.
Local Open Scope Q_scope.

Lemma scaled_side_reaches (c D q sq u : Q) :
  0 < D -> 0 <= c -> q * D == c -> q * (1 - u) <= sq -> c * (1 - u) <= D * sq.
Proof. intros. nra. Qed.

Context {F : Float64} {L : Float64Laws F}.

(** The side that decides the factor comes out within a pixel of its
    ceiling. *)
Lemma scaled_size_reaches_ceiling (h w : Z) :
  (0 < h < 2 ^ 31)%Z -> (0 < w < 2 ^ 31)%Z ->
  forall s : Q,
    s = py_min (rnd (inject_Z 1080 / inject_Z h)) (rnd (inject_Z 1920 / inject_Z w)) ->
    (1919 <= Py.trunc (mul_int_float w s) \/ 1079 <= Py.trunc (mul_int_float h s))%Z.
Proof.
  intros Hh Hw s Hs.
  assert (HH : 1 <= inject_Z h /\ inject_Z h <= 2147483648).
  { split; [apply (proj1 (inject_le 1 h)) | apply (proj1 (inject_le h 2147483648))]; lia. }
  assert (HW : 1 <= inject_Z w /\ inject_Z w <= 2147483648).
  { split; [apply (proj1 (inject_le 1 w)) | apply (proj1 (inject_le w 2147483648))]; lia. }
  assert (Hqh : inject_Z 1080 / inject_Z h * inject_Z h == 1080).
  { change (inject_Z 1080) with 1080. field. lra. }
  assert (Hqw : inject_Z 1920 / inject_Z w * inject_Z w == 1920).
  { change (inject_Z 1920) with 1920. field. lra. }
  pose proof (mul_int_float_rnd w s ltac:(lia)) as EA.
  pose proof (mul_int_float_rnd h s ltac:(lia)) as EB.
  revert Hqh Hqw Hs EA EB HH HW.
  generalize (inject_Z 1080 / inject_Z h) as qh.
  generalize (inject_Z 1920 / inject_Z w) as qw.
  intros qw qh Hqh Hqw Hs EA EB HH HW.
  destruct (quotient_bounds 1080 (inject_Z h) qh) as [Hqh2 Hqh3]; try lra.
  destruct (quotient_bounds 1920 (inject_Z w) qw) as [Hqw2 Hqw3]; try lra.
  destruct (rnd_near qh) as [Hsh2 Hsh3]; [lra | lra |].
  destruct (rnd_near qw) as [Hsw2 Hsw3]; [lra | lra |].
  revert Hs Hsh2 Hsh3 Hsw2 Hsw3.
  generalize (rnd qh) as sh. generalize (rnd qw) as sw.
  intros sw sh Hs Hsh2 Hsh3 Hsw2 Hsw3.
  destruct (py_min_cases sh sw) as [[E _] | [E _]]; rewrite E in Hs; subst s.
  - left.
    pose proof (scaled_side_reaches 1920 (inject_Z w) qw sw _ ltac:(lra) ltac:(lra)
                  Hqw Hsw2) as HX1.
    pose proof (scaled_side_upper 1920 (inject_Z w) qw sw sw _ ltac:(lra) Hqw Hsw3
                  ltac:(lra)) as HX2.
    destruct (rnd_near (inject_Z w * sw)) as [HA1 HA2]; [lra | lra |].
    destruct (trunc_bounds (mul_int_float w sw)) as (_ & _ & Hnw2); [lra|].
    revert Hnw2. generalize (Py.trunc (mul_int_float w sw)) as nw. intros nw Hnw2.
    rewrite inject_Z_plus in Hnw2. change (inject_Z 1) with 1 in Hnw2.
    rewrite EA in Hnw2.
    revert HA1 HA2 Hnw2. generalize (rnd (inject_Z w * sw)) as A.
    intros A HA1 HA2 Hnw2.
    assert (Hq : inject_Z 1918 < inject_Z nw).
    { change (inject_Z 1918) with 1918. lra. }
    apply inject_lt in Hq. lia.
  - right.
    pose proof (scaled_side_reaches 1080 (inject_Z h) qh sh _ ltac:(lra) ltac:(lra)
                  Hqh Hsh2) as HY1.
    pose proof (scaled_side_upper 1080 (inject_Z h) qh sh sh _ ltac:(lra) Hqh Hsh3
                  ltac:(lra)) as HY2.
    destruct (rnd_near (inject_Z h * sh)) as [HB1 HB2]; [lra | lra |].
    destruct (trunc_bounds (mul_int_float h sh)) as (_ & _ & Hnh2); [lra|].
    revert Hnh2. generalize (Py.trunc (mul_int_float h sh)) as nh. intros nh Hnh2.
    rewrite inject_Z_plus in Hnh2. change (inject_Z 1) with 1 in Hnh2.
    rewrite EB in Hnh2.
    revert HB1 HB2 Hnh2. generalize (rnd (inject_Z h * sh)) as B.
    intros B HB1 HB2 Hnh2.
    assert (Hq : inject_Z 1078 < inject_Z nh).
    { change (inject_Z 1078) with 1078. lra. }
    apply inject_lt in Hq. lia.
Qed.

End CeilingArithmetic.

Section ResizeAgain.
Context {cv : Cv2} {CL : Cv2Laws cv} {F : Float64} {L : Float64Laws F}.

(** The shape of what [resize_to_1080p] returns for an image above the
    ceiling. *)
Lemma resize_to_1080p_big (img out : image) :
  1080 < shape0 img \/ 1920 < shape1 img ->
  0 < shape0 img -> 0 < shape1 img ->
  resize_to_1080p img = Ok out ->
  shape1 out = Py.trunc (mul_int_float (shape1 img)
                 (py_min (rnd (inject_Z 1080 / inject_Z (shape0 img)))
                         (rnd (inject_Z 1920 / inject_Z (shape1 img)))))
  /\ shape0 out = Py.trunc (mul_int_float (shape0 img)
                    (py_min (rnd (inject_Z 1080 / inject_Z (shape0 img)))
                            (rnd (inject_Z 1920 / inject_Z (shape1 img))))).
Proof.
  intros Hbig Hh Hw. unfold resize_to_1080p, truediv.
  destruct (Z.leb_spec (shape0 img) 1080) as [H1|H1];
    destruct (Z.leb_spec (shape1 img) 1920) as [H2|H2]; simpl; try lia;
    destruct (Z.eqb_spec (shape0 img) 0); try lia;
    destruct (Z.eqb_spec (shape1 img) 0); try lia; simpl;
    intros Hout; apply resize_shape in Hout; destruct Hout; auto.
Qed.

End ResizeAgain.

(** X3: resizing is idempotent: what [resize_to_1080p] returns is
    returned unchanged when resized again. *)
Theorem resize_to_1080p_idempotent {cv : Cv2} {CL : Cv2Laws cv}
  {F : Float64} {L : Float64Laws F} (img out : image) :
  0 < shape0 img < 2 ^ 31 -> 0 < shape1 img < 2 ^ 31 ->
  resize_to_1080p img = Ok out ->
  resize_to_1080p out = Ok out.
Proof.
  intros Hh Hw Hout.
  assert (Hfit : shape0 out <= 1080 /\ shape1 out <= 1920).
  { destruct (Z.le_gt_cases (shape0 img) 1080) as [H1|H1];
      [destruct (Z.le_gt_cases (shape1 img) 1920) as [H2|H2]|].
    - unfold resize_to_1080p in Hout.
      destruct (Z.leb_spec (shape0 img) 1080); [|lia].
      destruct (Z.leb_spec (shape1 img) 1920); [|lia].
      simpl in Hout. inversion Hout; subst. lia.
    - destruct (resize_to_1080p_big img out) as [E1 E0]; try lia; try assumption.
      pose proof (scaled_size_bounds (shape0 img) (shape1 img) Hh Hw
                    ltac:(lia) _ eq_refl _ _ eq_refl eq_refl) as (B1 & B2 & _).
      rewrite E0, E1. lia.
    - destruct (resize_to_1080p_big img out) as [E1 E0]; try lia; try assumption.
      pose proof (scaled_size_bounds (shape0 img) (shape1 img) Hh Hw
                    ltac:(lia) _ eq_refl _ _ eq_refl eq_refl) as (B1 & B2 & _).
      rewrite E0, E1. lia. }
  unfold resize_to_1080p.
  destruct (Z.leb_spec (shape0 out) 1080); [|lia].
  destruct (Z.leb_spec (shape1 out) 1920); [|lia]. reflexivity.
Qed.

Lemma resize_to_1080p_idempotent_witness :
  exists out,
    resize_to_1080p (Sample.solid 2160 3840 7) = Ok out
    /\ resize_to_1080p out = Ok out.
Proof.
  eexists. split; [vm_compute; reflexivity |].
  apply (resize_to_1080p_idempotent (CL := sample_cv_laws) (L := exact_laws)
           (Sample.solid 2160 3840 7)).
  - simpl; lia.
  - simpl; lia.
  - vm_compute; reflexivity.
Defined.

(** X4: an image above the ceiling is not shrunk more than the ceiling
    asks for: the resized image is at least 1919 wide or at least 1079
    high. *)
Theorem resize_to_1080p_reaches_ceiling {cv : Cv2} {CL : Cv2Laws cv}
  {F : Float64} {L : Float64Laws F} (img out : image) :
  0 < shape0 img < 2 ^ 31 -> 0 < shape1 img < 2 ^ 31 ->
  1080 < shape0 img \/ 1920 < shape1 img ->
  resize_to_1080p img = Ok out ->
  1919 <= shape1 out \/ 1079 <= shape0 out.
Proof.
  intros Hh Hw Hbig Hout.
  destruct (resize_to_1080p_big img out) as [E1 E0]; try lia; try assumption.
  rewrite E0, E1.
  exact (scaled_size_reaches_ceiling (shape0 img) (shape1 img) Hh Hw _ eq_refl).
Qed.

Lemma resize_to_1080p_reaches_ceiling_witness :
  exists out,
    resize_to_1080p (Sample.solid 2000 2000 7) = Ok out
    /\ (1919 <= shape1 out \/ 1079 <= shape0 out).
Proof.
  eexists. split; [vm_compute; reflexivity |].
  apply (resize_to_1080p_reaches_ceiling (CL := sample_cv_laws) (L := exact_laws)
           (Sample.solid 2000 2000 7)).
  - simpl; lia.
  - simpl; lia.
  - simpl; lia.
  - vm_compute; reflexivity.
Defined.

(** ** The ways a run ends *)

Lemma setex_cases key ttl r s :
  setex key ttl r s = (Raise unreachable, {| kv := kv s; faults := tail (faults s) |})
  \/ setex key ttl r s
     = (Ok tt, {| kv := <[key := Json ttl r]> (kv s); faults := tail (faults s) |}).
Proof.
  unfold setex, call. destruct (faults s) as [|[|] fs]; simpl; auto.
Qed.

Lemma incr_cases key s :
  (exists e, incr key s = (Raise e, {| kv := kv s; faults := tail (faults s) |}))
  \/ incr key s
     = (Ok (counter_value (kv s) key + 1),
        {| kv := <[key := Int (counter_value (kv s) key + 1)]> (kv s);
           faults := tail (faults s) |}).
Proof.
  unfold incr, call, counter_value.
  destruct (faults s) as [|[|] fs]; simpl; eauto;
    (destruct (kv s !! key) as [[t r|n]|]; simpl; eauto;
     destruct (n =? 2 ^ 63 - 1); simpl; eauto).
Qed.

(** Case analysis on the next call of the store in the goal. *)
Ltac next_store_call :=
  match goal with
  | |- context [setex ?k ?t ?r ?s] =>
      let E := fresh "E" in
      destruct (setex_cases k t r s) as [E | E]; rewrite E; clear E; simpl
  | |- context [incr ?k ?s] =>
      let E := fresh "E" in
      destruct (incr_cases k s) as [[? E] | E]; rewrite E; clear E; simpl
  end.

(** Brings the keys of a final store to the form [run_ends] uses. *)
Ltac tidy_keys :=
  rewrite ?insert_insert_eq;
  rewrite ?counter_value_after_result
    by first [apply completed_key_is_counter | apply failed_key_is_counter].

Ltac some_exn := (eexists + exists unreachable).

Ltac close_run :=
  unfold run_ends; tidy_keys;
  first
    [ left; split; reflexivity
    | right; left; some_exn; split; reflexivity
    | right; right; eexists; split; [reflexivity | left; reflexivity]
    | right; right; eexists; split; [reflexivity | right; left; reflexivity]
    | right; right; eexists; split;
      [reflexivity | right; right; exists unreachable; reflexivity]
    | right; right; eexists; split;
      [reflexivity | right; right; eexists; reflexivity] ].

Section RunEnds2.
Context {cv : Cv2} {F : Float64}.
Variable detector : ApexDetector.
Local Arguments String.append : simpl never.

Lemma worker_run_ends td now w :
  run_ends (Worker.task_id td) (Worker.clip_id td) (Worker.screenshot_urls td) now
    (fun _ f => Ok f)
    (completed_record (Worker.task_id td) (Worker.clip_id td)
       (Worker.screenshot_urls td) now
       (best_detection (fst (process_screenshots detector
                               (Worker.screenshot_urls td) (net w)))))
    (kv (redis w))
    (kv (redis (snd (Worker.process_task detector td now w))))
    (fst (Worker.process_task detector td now w)).
Proof.
  open_task.
  pose proof (process_screenshots_index detector
                (Worker.screenshot_urls td) (net w)) as Hidx.
  unfold process_screenshots in *.
  destruct (process_multiple_screenshots detector (Worker.screenshot_urls td) (net w))
    as [[m|] n']; simpl in *;
    [destruct (Hidx m eq_refl) as (k & Hk & _); rewrite Hk; simpl |];
    repeat next_store_call; close_run.
Qed.

Lemma video_run_ends task_id clip_id urls now w :
  run_ends task_id clip_id urls now (fun e _ => Raise e)
    (completed_record task_id clip_id urls now
       (best_detection (fst (process_screenshots detector urls (net w)))))
    (kv (redis w))
    (kv (redis (snd (Tasks.process_video_screenshots detector task_id clip_id urls now w))))
    (fst (Tasks.process_video_screenshots detector task_id clip_id urls now w)).
Proof.
  open_task.
  pose proof (process_screenshots_index detector urls (net w)) as Hidx.
  unfold process_screenshots in *.
  destruct (process_multiple_screenshots detector urls (net w))
    as [[m|] n']; simpl in *;
    [destruct (Hidx m eq_refl) as (k & Hk & _); rewrite Hk; simpl |];
    repeat next_store_call; close_run.
Qed.

End RunEnds2.


Section RunConsequences.
Local Arguments String.append : simpl never.

Lemma counter_keys_differ day day' :
  ("stats:completed:" ++ day)%string <> ("stats:failed:" ++ day')%string.
Proof. cbv [String.append]. discriminate. Qed.

Lemma counter_value_insert_int m key n :
  counter_value (<[key := Int n]> m) key = n.
Proof. unfold counter_value. now rewrite lookup_insert_eq. Qed.

Lemma counter_value_insert_other m key key' v :
  key <> key' -> counter_value (<[key := v]> m) key' = counter_value m key'.
Proof. intros H. unfold counter_value. now rewrite lookup_insert_ne. Qed.

Variables (task_id clip_id : string) (urls : list string) (now : datetime).
Variable on_failure : exn -> DetectionResult -> res DetectionResult.
Variables (r : DetectionResult) (kv0 kv1 : gmap string value).
Variable out : res DetectionResult.
Hypothesis Hrun : run_ends task_id clip_id urls now on_failure r kv0 kv1 out.

Lemma run_ends_frame key :
  key <> ("result:" ++ task_id)%string ->
  key <> ("stats:completed:" ++ strftime_Ymd now)%string ->
  key <> ("stats:failed:" ++ strftime_Ymd now)%string ->
  kv1 !! key = kv0 !! key.
Proof.
  intros H1 H2 H3.
  destruct Hrun as [[_ ->] | [(e & _ & ->) | (e & _ & [-> | [-> | (e0 & ->)]])]];
    rewrite ?lookup_insert_ne by congruence; reflexivity.
Qed.

Lemma run_ends_counters :
  let ck := ("stats:completed:" ++ strftime_Ymd now)%string in
  let fk := ("stats:failed:" ++ strftime_Ymd now)%string in
  (out = Ok r
   /\ counter_value kv1 ck = counter_value kv0 ck + 1
   /\ counter_value kv1 fk = counter_value kv0 fk)
  \/ ((exists e, out = on_failure e (failed_record task_id clip_id urls now e))
      /\ counter_value kv1 ck = counter_value kv0 ck
      /\ counter_value kv1 fk = counter_value kv0 fk + 1)
  \/ ((exists e, out = Raise e)
      /\ counter_value kv1 ck = counter_value kv0 ck
      /\ counter_value kv1 fk = counter_value kv0 fk).
Proof.
  intros ck fk.
  destruct Hrun as [[Hout ->] | [(e & Hout & ->) | (e & Hout & Hkv)]].
  - left. split; [exact Hout|]. split.
    + apply counter_value_insert_int.
    + rewrite counter_value_insert_other by apply counter_keys_differ.
      apply counter_value_after_result, failed_key_is_counter.
  - right; left. split; [eauto|]. split.
    + rewrite counter_value_insert_other
        by (apply not_eq_sym, counter_keys_differ).
      apply counter_value_after_result, completed_key_is_counter.
    + apply counter_value_insert_int.
  - right; right. split; [eauto|].
    destruct Hkv as [-> | [-> | (e0 & ->)]]; split; try reflexivity;
      apply counter_value_after_result;
      first [apply completed_key_is_counter | apply failed_key_is_counter].
Qed.

End RunConsequences.


Lemma every_entry_empty (P : string -> Z -> DetectionResult -> Prop) :
  every_entry P (∅ : gmap string value).
Proof. intros key ttl r Hk. rewrite lookup_empty in Hk. discriminate. Qed.

(** ** The polling loop *)

Section Loop.
Context {cv : Cv2} {F : Float64}.
Variable detector : ApexDetector.
Variable json_loads : string -> res Worker.task_data.


Lemma main_turn_inbox now q :
  inbox (snd (main_turn detector json_loads now q)) = inbox (snd (brpop q)).
Proof.
  unfold main_turn. destruct (brpop q) as [[[s|]|e] q']; simpl; try reflexivity.
  destruct (json_loads s) as [td|e]; simpl; [|reflexivity].
  now destruct (Worker.process_task detector td now (world_of q')) as [[r|e] w'].
Qed.



End Loop.

(** ** What a run does to the store *)

(** X11: a run leaves every key alone except the result key of its task
    and the two counters of the day, however it ends. *)
Theorem task_leaves_other_keys {cv : Cv2} {F : Float64} (detector : ApexDetector)
  (task_id clip_id : string) (urls : list string) (now : datetime) (w : world)
  (key : string) :
  key <> ("result:" ++ task_id)%string ->
  key <> ("stats:completed:" ++ strftime_Ymd now)%string ->
  key <> ("stats:failed:" ++ strftime_Ymd now)%string ->
  kv (redis (snd (Tasks.process_video_screenshots detector task_id clip_id urls now w)))
    !! key = kv (redis w) !! key
  /\ kv (redis (snd (Worker.process_task detector
                       {| Worker.task_id := task_id; Worker.clip_id := clip_id;
                          Worker.screenshot_urls := urls |} now w)))
       !! key = kv (redis w) !! key.
Proof.
  intros H1 H2 H3. split.
  - exact (run_ends_frame _ _ _ _ _ _ _ _ _
             (video_run_ends detector task_id clip_id urls now w) key H1 H2 H3).
  - exact (run_ends_frame _ _ _ _ _ _ _ _ _
             (worker_run_ends detector
                {| Worker.task_id := task_id; Worker.clip_id := clip_id;
                   Worker.screenshot_urls := urls |} now w) key H1 H2 H3).
Qed.

Lemma task_leaves_other_keys_witness :
  kv (redis (snd (Tasks.process_video_screenshots Sample.two_refs "t1" "clip"
                    Sample.four_urls Sample.noon (Sample.four_world [false; true]))))
    !! "result:t2"%string
  = kv (redis (Sample.four_world [false; true])) !! "result:t2"%string.
Proof.
  refine (proj1 (task_leaves_other_keys Sample.two_refs "t1" "clip" Sample.four_urls
                   Sample.noon (Sample.four_world [false; true]) "result:t2" _ _ _));
    discriminate.
Defined.

(** X12: a run counts once at most.  Either it returns the completed
    record and the day's completed counter is one higher; or the handler
    got through and the failed counter is one higher (the Celery task then
    raises, the worker returns the failed record); or it raises and both
    counters are as before. *)
Theorem task_counts_once {cv : Cv2} {F : Float64} (detector : ApexDetector)
  (task_id clip_id : string) (urls : list string) (now : datetime) (w : world) :
  let td := {| Worker.task_id := task_id; Worker.clip_id := clip_id;
               Worker.screenshot_urls := urls |} in
  let ck := ("stats:completed:" ++ strftime_Ymd now)%string in
  let fk := ("stats:failed:" ++ strftime_Ymd now)%string in
  let r := completed_record task_id clip_id urls now
             (best_detection (fst (process_screenshots detector urls (net w)))) in
  let c0 := counter_value (kv (redis w)) ck in
  let f0 := counter_value (kv (redis w)) fk in
  (let out := Tasks.process_video_screenshots detector task_id clip_id urls now w in
   (fst out = Ok r
    /\ counter_value (kv (redis (snd out))) ck = c0 + 1
    /\ counter_value (kv (redis (snd out))) fk = f0)
   \/ ((exists e, fst out = Raise e)
       /\ counter_value (kv (redis (snd out))) ck = c0
       /\ (counter_value (kv (redis (snd out))) fk = f0 + 1
           \/ counter_value (kv (redis (snd out))) fk = f0)))
  /\ (let out := Worker.process_task detector td now w in
      (fst out = Ok r
       /\ counter_value (kv (redis (snd out))) ck = c0 + 1
       /\ counter_value (kv (redis (snd out))) fk = f0)
      \/ ((exists e, fst out = Ok (failed_record task_id clip_id urls now e))
          /\ counter_value (kv (redis (snd out))) ck = c0
          /\ counter_value (kv (redis (snd out))) fk = f0 + 1)
      \/ ((exists e, fst out = Raise e)
          /\ counter_value (kv (redis (snd out))) ck = c0
          /\ counter_value (kv (redis (snd out))) fk = f0)).
Proof.
  intros td ck fk r c0 f0. split.
  - intros out.
    destruct (run_ends_counters _ _ _ _ _ _ _ _ _
                (video_run_ends detector task_id clip_id urls now w))
      as [(H1 & H2 & H3) | [(H1 & H2 & H3) | (H1 & H2 & H3)]].
    + left. auto.
    + right. auto.
    + right. auto.
  - intros out.
    exact (run_ends_counters _ _ _ _ _ _ _ _ _ (worker_run_ends detector td now w)).
Qed.

(** X13: what a task returns is what it stored: a returned record sits
    under [result:<task_id>], for 604800 seconds with status "completed",
    and, for the worker only, for 86400 seconds with status "failed". *)
Theorem returned_record_is_stored {cv : Cv2} {F : Float64} (detector : ApexDetector)
  (task_id clip_id : string) (urls : list string) (now : datetime) (w : world) :
  let td := {| Worker.task_id := task_id; Worker.clip_id := clip_id;
               Worker.screenshot_urls := urls |} in
  (forall r,
      fst (Tasks.process_video_screenshots detector task_id clip_id urls now w) = Ok r ->
      Status r = "completed"%string
      /\ kv (redis (snd (Tasks.process_video_screenshots detector task_id clip_id
                           urls now w)))
           !! ("result:" ++ task_id)%string = Some (Json 604800 r))
  /\ (forall r,
         fst (Worker.process_task detector td now w) = Ok r ->
         (Status r = "completed"%string
          /\ kv (redis (snd (Worker.process_task detector td now w)))
               !! ("result:" ++ task_id)%string = Some (Json 604800 r))
         \/ (Status r = "failed"%string
             /\ kv (redis (snd (Worker.process_task detector td now w)))
                  !! ("result:" ++ task_id)%string = Some (Json 86400 r))).
Proof.
  intros td.
  assert (Hc : forall (m : gmap string value) r,
             <[("stats:completed:" ++ strftime_Ymd now)%string :=
                 Int (counter_value m ("stats:completed:" ++ strftime_Ymd now) + 1)]>
               (<[("result:" ++ task_id)%string := Json 604800 r]> m)
               !! ("result:" ++ task_id)%string = Some (Json 604800 r)).
  { intros m r. rewrite lookup_insert_ne
      by (apply not_eq_sym, result_key_not_counter, completed_key_is_counter).
    apply lookup_insert_eq. }
  assert (Hf : forall (m : gmap string value) r,
             <[("stats:failed:" ++ strftime_Ymd now)%string :=
                 Int (counter_value m ("stats:failed:" ++ strftime_Ymd now) + 1)]>
               (<[("result:" ++ task_id)%string := Json 86400 r]> m)
               !! ("result:" ++ task_id)%string = Some (Json 86400 r)).
  { intros m r. rewrite lookup_insert_ne
      by (apply not_eq_sym, result_key_not_counter, failed_key_is_counter).
    apply lookup_insert_eq. }
  split; intros r Hout.
  - destruct (video_run_ends detector task_id clip_id urls now w)
      as [[Hr Hkv] | [(e & Hr & _) | (e & Hr & _)]];
      rewrite Hout in Hr; try discriminate.
    inversion Hr; subst r. split; [reflexivity|]. rewrite Hkv. apply Hc.
  - destruct (worker_run_ends detector td now w)
      as [[Hr Hkv] | [(e & Hr & Hkv) | (e & Hr & _)]];
      rewrite Hout in Hr; try discriminate.
    + left. inversion Hr; subst r. split; [reflexivity|]. rewrite Hkv. apply Hc.
    + right. inversion Hr; subst r. split; [reflexivity|]. rewrite Hkv. apply Hf.
Qed.

Lemma returned_record_is_stored_witness :
  fst (Worker.process_task Sample.two_refs Sample.four_task Sample.noon
         (Sample.four_world [true]))
  = Ok (failed_record "t1" "clip" Sample.four_urls Sample.noon unreachable)
  /\ kv (redis (snd (Worker.process_task Sample.two_refs Sample.four_task Sample.noon
                        (Sample.four_world [true]))))
        !! "result:t1"%string
      = Some (Json 86400 (failed_record "t1" "clip" Sample.four_urls Sample.noon
                            unreachable)).
Proof.
  assert (Hout : fst (Worker.process_task Sample.two_refs Sample.four_task Sample.noon
                        (Sample.four_world [true]))
                 = Ok (failed_record "t1" "clip" Sample.four_urls Sample.noon
                         unreachable))
    by (vm_compute; reflexivity).
  split; [exact Hout |].
  destruct (proj2 (returned_record_is_stored Sample.two_refs "t1" "clip"
                     Sample.four_urls Sample.noon (Sample.four_world [true]))
              _ Hout) as [[Hs _] | [_ Hk]].
  - discriminate Hs.
  - exact Hk.
Defined.

Section Entries.
Variables (task_id clip_id : string) (urls : list string) (now : datetime).
Variable on_failure : exn -> DetectionResult -> res DetectionResult.
Variables (r : DetectionResult) (kv0 kv1 : gmap string value).
Variable out : res DetectionResult.
Hypothesis Hrun : run_ends task_id clip_id urls now on_failure r kv0 kv1 out.

(** The entries after a run are those before, the completed record and
    failed records of this task. *)
Lemma run_ends_entries (P : string -> Z -> DetectionResult -> Prop) :
  every_entry P kv0 ->
  P ("result:" ++ task_id)%string 604800 r ->
  (forall e, P ("result:" ++ task_id)%string 86400
               (failed_record task_id clip_id urls now e)) ->
  every_entry P kv1.
Proof.
  intros H0 Hr Hf key ttl r' Hk.
  assert (Hins : forall (m : gmap string value) k' t' x,
             every_entry P m -> P k' t' x -> every_entry P (<[k' := Json t' x]> m)).
  { intros m k' t' x Hm Hx k t y Hy.
    destruct (decide (k' = k)) as [<- | Hne].
    - rewrite lookup_insert_eq in Hy. now inversion Hy; subst.
    - rewrite lookup_insert_ne in Hy by exact Hne. now apply Hm. }
  assert (Hint : forall (m : gmap string value) k' n,
             every_entry P m -> every_entry P (<[k' := Int n]> m)).
  { intros m k' n Hm k t y Hy.
    destruct (decide (k' = k)) as [<- | Hne].
    - rewrite lookup_insert_eq in Hy. discriminate.
    - rewrite lookup_insert_ne in Hy by exact Hne. now apply Hm. }
  revert key ttl r' Hk. change (every_entry P kv1).
  destruct Hrun as [[_ ->] | [(e & _ & ->) | (e & _ & [-> | [-> | (e0 & ->)]])]];
    auto.
Qed.

End Entries.

Section Content.
Context {cv : Cv2} {F : Float64}.
Variable detector : ApexDetector.

(** The winner of a batch, seen from the request and the library. *)
Lemma process_screenshots_winner urls n m :
  fst (process_screenshots detector urls n) = Some m ->
  exists k : nat,
    screenshot_index m = Some (Z.of_nat k)
    /\ urls !! k = Some (url m)
    /\ In (character_name m) (map fst (reference_portraits detector)).
Proof.
  unfold process_screenshots. intros Hm.
  apply process_multiple_screenshots_some in Hm.
  destruct Hm as (k & r & Hk & -> & _). exists k. simpl.
  split; [reflexivity|].
  pose proof (gather_lookup_url detector urls n k r Hk) as (Hurl & _).
  split; [exact Hurl|].
  apply gather_lookup in Hk. destruct Hk as (u & _ & Hval).
  assert (Hr : fst (process_screenshot_url detector u (net_after n (take k urls)))
               = Some r) by congruence.
  destruct (process_screenshot_url_portrait detector u _ r Hr)
    as (img & img' & portrait & Hdl & Hrs & Hex).
  rewrite (process_screenshot_url_scan detector u _ img img' portrait Hdl Hrs Hex) in Hr.
  destruct (scan_references portrait u (reference_portraits detector) None 0%Q)
    as [[bm hc]|] eqn:Hscan; [|discriminate].
  destruct (Qle_bool (min_confidence detector) hc); [|discriminate]. subst bm.
  apply scan_references_spec in Hscan.
  destruct Hscan as [([=] & _) | (j & nm & ref & Hj & _ & [= ->] & _)].
  simpl. apply in_map_iff. exists (nm, ref). split; [reflexivity|].
  apply list_elem_of_In, list_elem_of_lookup. now exists j.
Qed.

Lemma best_detection_winner urls n b :
  best_detection (fst (process_screenshots detector urls n)) = Some b ->
  exists m (k : nat),
    fst (process_screenshots detector urls n) = Some m
    /\ b = detection_of m (Z.of_nat k)
    /\ (k < length urls)%nat
    /\ urls !! k = Some (url m)
    /\ In (character_name m) (map fst (reference_portraits detector)).
Proof.
  destruct (fst (process_screenshots detector urls n)) as [m|] eqn:Hm;
    simpl; [|discriminate].
  destruct (process_screenshots_winner urls n m Hm) as (k & Hk & Hurl & Hname).
  rewrite Hk. intros [= <-]. exists m, k. split_and!; try reflexivity; try assumption.
  now apply lookup_lt_Some in Hurl.
Qed.

Lemma completed_record_points task_id clip_id urls now n :
  points_into_request
    (completed_record task_id clip_id urls now
       (best_detection (fst (process_screenshots detector urls n)))).
Proof.
  intros b Hb. simpl in Hb.
  destruct (best_detection_winner urls n b Hb) as (m & k & _ & -> & Hk & _).
  rewrite Hb. simpl. split_and!; try reflexivity; lia.
Qed.

Lemma failed_record_points task_id clip_id urls now e :
  points_into_request (failed_record task_id clip_id urls now e).
Proof. intros b Hb. discriminate. Qed.

End Content.

(** X14: both tasks keep the store in order: every record sits under the
    key of its own task id, for 604800 seconds and without error text when
    its status is "completed", for 86400 seconds, with an error text and
    without detection when its status is "failed". *)
Theorem entries_kept_by_policy {cv : Cv2} {F : Float64} (detector : ApexDetector)
  (task_id clip_id : string) (urls : list string) (now : datetime) (w : world) :
  every_entry kept_by_policy (kv (redis w)) ->
  every_entry kept_by_policy
    (kv (redis (snd (Tasks.process_video_screenshots detector task_id clip_id
                       urls now w))))
  /\ every_entry kept_by_policy
       (kv (redis (snd (Worker.process_task detector
                          {| Worker.task_id := task_id; Worker.clip_id := clip_id;
                             Worker.screenshot_urls := urls |} now w)))).
Proof.
  intros H0.
  assert (Hr : forall best, kept_by_policy ("result:" ++ task_id) 604800
                              (completed_record task_id clip_id urls now best)).
  { intros best. split; [reflexivity|]. left. auto. }
  assert (Hf : forall e, kept_by_policy ("result:" ++ task_id) 86400
                           (failed_record task_id clip_id urls now e)).
  { intros e. split; [reflexivity|]. right. split_and!; try reflexivity. discriminate. }
  split.
  - exact (run_ends_entries _ _ _ _ _ _ _ _ _
             (video_run_ends detector task_id clip_id urls now w)
             kept_by_policy H0 (Hr _) Hf).
  - exact (run_ends_entries _ _ _ _ _ _ _ _ _
             (worker_run_ends detector
                {| Worker.task_id := task_id; Worker.clip_id := clip_id;
                   Worker.screenshot_urls := urls |} now w) kept_by_policy H0 (Hr _) Hf).
Qed.

Lemma entries_kept_by_policy_witness :
  every_entry kept_by_policy (kv (redis (Sample.four_world [])))
  /\ every_entry kept_by_policy
       (kv (redis (snd (Worker.process_task Sample.two_refs Sample.four_task
                          Sample.noon (Sample.four_world []))))).
Proof.
  split; [apply every_entry_empty |].
  refine (proj2 (entries_kept_by_policy Sample.two_refs "t1" "clip"
                   Sample.four_urls Sample.noon (Sample.four_world []) _)).
  apply every_entry_empty.
Defined.

(** X15: in every stored record the best detection points into the
    request: its [ScreenshotIndex] is at least 0 and below
    [TotalScreenshots], and it is the one entry of [Detections] and its
    name the one entry of [UniqueCharacters]. *)
Theorem stored_index_within_request {cv : Cv2} {F : Float64} (detector : ApexDetector)
  (task_id clip_id : string) (urls : list string) (now : datetime) (w : world) :
  every_record points_into_request (redis w) ->
  every_record points_into_request
    (redis (snd (Tasks.process_video_screenshots detector task_id clip_id urls now w)))
  /\ every_record points_into_request
       (redis (snd (Worker.process_task detector
                      {| Worker.task_id := task_id; Worker.clip_id := clip_id;
                         Worker.screenshot_urls := urls |} now w))).
Proof.
  intros H0. split.
  - exact (run_ends_entries _ _ _ _ _ _ _ _ _
             (video_run_ends detector task_id clip_id urls now w)
             (fun _ _ r => points_into_request r) H0
             (completed_record_points detector task_id clip_id urls now (net w))
             (failed_record_points task_id clip_id urls now)).
  - exact (run_ends_entries _ _ _ _ _ _ _ _ _
             (worker_run_ends detector
                {| Worker.task_id := task_id; Worker.clip_id := clip_id;
                   Worker.screenshot_urls := urls |} now w)
             (fun _ _ r => points_into_request r) H0
             (completed_record_points detector task_id clip_id urls now (net w))
             (failed_record_points task_id clip_id urls now)).
Qed.

Lemma stored_index_within_request_witness :
  every_record points_into_request (redis (Sample.four_world []))
  /\ every_record points_into_request
       (redis (snd (Tasks.process_video_screenshots Sample.two_refs "t1" "clip"
                      Sample.four_urls Sample.noon (Sample.four_world [])))).
Proof.
  split; [apply every_record_empty |].
  refine (proj1 (stored_index_within_request Sample.two_refs "t1" "clip"
                   Sample.four_urls Sample.noon (Sample.four_world []) _)).
  apply every_record_empty.
Defined.

(** X16: the best detection of a returned record agrees with the request
    and the library: its [ScreenshotUrl] is the URL at [ScreenshotIndex] in
    [screenshot_urls], its [CharacterName] is a name of the reference
    library, and its [Confidence] is that of the match the detector
    returned. *)
Theorem returned_detection_matches_request {cv : Cv2} {F : Float64}
  (detector : ApexDetector) (task_id clip_id : string) (urls : list string)
  (now : datetime) (w : world) (r : DetectionResult) (b : Detection) :
  (fst (Tasks.process_video_screenshots detector task_id clip_id urls now w) = Ok r
   \/ fst (Worker.process_task detector
             {| Worker.task_id := task_id; Worker.clip_id := clip_id;
                Worker.screenshot_urls := urls |} now w) = Ok r) ->
  BestOverall r = Some b ->
  0 <= ScreenshotIndex b
  /\ urls !! Z.to_nat (ScreenshotIndex b) = Some (ScreenshotUrl b)
  /\ In (CharacterName b) (map fst (reference_portraits detector))
  /\ exists m, fst (process_screenshots detector urls (net w)) = Some m
               /\ Confidence b = confidence m
               /\ CharacterName b = character_name m.
Proof.
  intros Hout Hb.
  assert (Hr : r = completed_record task_id clip_id urls now
                     (best_detection (fst (process_screenshots detector urls (net w))))).
  { destruct Hout as [Hout | Hout].
    - destruct (video_run_ends detector task_id clip_id urls now w)
        as [[Hr _] | [(e & Hr & _) | (e & Hr & _)]];
        rewrite Hout in Hr; try discriminate. now inversion Hr.
    - destruct (worker_run_ends detector
                  {| Worker.task_id := task_id; Worker.clip_id := clip_id;
                     Worker.screenshot_urls := urls |} now w)
        as [[Hr _] | [(e & Hr & _) | (e & Hr & _)]];
        rewrite Hout in Hr; try discriminate; inversion Hr; subst r;
        [reflexivity | discriminate]. }
  subst r. simpl in Hb.
  destruct (best_detection_winner detector urls (net w) b Hb)
    as (m & k & Hm & -> & Hk & Hurl & Hname).
  simpl. rewrite Nat2Z.id. split_and!; try assumption; [lia|].
  exists m. auto.
Qed.

Lemma returned_detection_matches_request_witness :
  fst (Worker.process_task Sample.two_refs Sample.four_task Sample.noon
         (Sample.four_world []))
  = Ok (completed_record "t1" "clip" Sample.four_urls Sample.noon
          (Some (detection_of Sample.wraith_at_1 1)))
  /\ Sample.four_urls !! Z.to_nat (ScreenshotIndex (detection_of Sample.wraith_at_1 1))
      = Some (ScreenshotUrl (detection_of Sample.wraith_at_1 1))
  /\ In (CharacterName (detection_of Sample.wraith_at_1 1))
         (map fst (reference_portraits Sample.two_refs)).
Proof.
  assert (Hout : fst (Worker.process_task Sample.two_refs Sample.four_task Sample.noon
                        (Sample.four_world []))
                 = Ok (completed_record "t1" "clip" Sample.four_urls Sample.noon
                         (Some (detection_of Sample.wraith_at_1 1))))
    by (vm_compute; reflexivity).
  split; [exact Hout |].
  destruct (returned_detection_matches_request Sample.two_refs "t1" "clip"
              Sample.four_urls Sample.noon (Sample.four_world []) _
              (detection_of Sample.wraith_at_1 1) (or_intror Hout) eq_refl)
    as (_ & Hu & Hn & _).
  split; [exact Hu | exact Hn].
Defined.

(** X17: when the detector returns no match, a task whose store can be
    reached completes all the same: it returns and stores a "completed"
    record without detection. *)
Theorem no_match_is_completed {cv : Cv2} {F : Float64} (detector : ApexDetector)
  (task_id clip_id : string) (urls : list string) (now : datetime) (w : world) :
  fst (process_screenshots detector urls (net w)) = None ->
  up (faults (redis w)) 0 -> up (faults (redis w)) 1 ->
  counter_ready (kv (redis w)) ("stats:completed:" ++ strftime_Ymd now) ->
  fst (Tasks.process_video_screenshots detector task_id clip_id urls now w)
  = Ok (completed_record task_id clip_id urls now None)
  /\ fst (Worker.process_task detector
            {| Worker.task_id := task_id; Worker.clip_id := clip_id;
               Worker.screenshot_urls := urls |} now w)
     = Ok (completed_record task_id clip_id urls now None).
Proof.
  intros Hnone Hup0 Hup1 Hready. split.
  - destruct (video_run_completed detector task_id clip_id urls now w Hup0 Hup1 Hready)
      as (r0 & Hrun & Hst & _).
    destruct (video_run_ends detector task_id clip_id urls now w)
      as [[Hr _] | [(e & Hr & _) | (e & Hr & _)]];
      rewrite Hrun in Hr; simpl in Hr; try discriminate.
    rewrite Hrun. simpl. rewrite Hr, Hnone. reflexivity.
  - destruct (worker_run_completed detector
                {| Worker.task_id := task_id; Worker.clip_id := clip_id;
                   Worker.screenshot_urls := urls |} now w Hup0 Hup1 Hready)
      as (r0 & Hrun & Hst & _).
    destruct (worker_run_ends detector
                {| Worker.task_id := task_id; Worker.clip_id := clip_id;
                   Worker.screenshot_urls := urls |} now w)
      as [[Hr _] | [(e & Hr & _) | (e & Hr & _)]];
      rewrite Hrun in Hr; simpl in Hr; try discriminate.
    + rewrite Hrun. simpl. rewrite Hr. simpl. rewrite Hnone. reflexivity.
    + inversion Hr; subst r0. discriminate.
Qed.

Lemma no_match_is_completed_witness :
  fst (Worker.process_task Fixtures.no_refs
         {| Worker.task_id := "t1"; Worker.clip_id := "clip";
            Worker.screenshot_urls := Sample.four_urls |} Sample.noon
         (Sample.four_world []))
  = Ok (completed_record "t1" "clip" Sample.four_urls Sample.noon None).
Proof.
  refine (proj2 (no_match_is_completed Fixtures.no_refs "t1" "clip" Sample.four_urls
                   Sample.noon (Sample.four_world []) _ _ _ _)); reflexivity.
Defined.

Section WorkerStored.
Context {cv : Cv2} {F : Float64}.
Variable detector : ApexDetector.
Local Arguments String.append : simpl never.

(** A record the worker returns is under the result key of its task. *)
Lemma worker_returned_stored td now w r :
  fst (Worker.process_task detector td now w) = Ok r ->
  exists ttl,
    kv (redis (snd (Worker.process_task detector td now w)))
      !! ("result:" ++ Worker.task_id td)%string = Some (Json ttl r)
    /\ TaskId r = Worker.task_id td.
Proof.
  intros Hout.
  destruct (worker_run_ends detector td now w)
    as [[Hr Hkv] | [(e & Hr & Hkv) | (e & Hr & _)]];
    rewrite Hout in Hr; try discriminate; inversion Hr; subst r; rewrite Hkv.
  - exists 604800. split; [|reflexivity].
    rewrite lookup_insert_ne
      by (apply not_eq_sym, result_key_not_counter, completed_key_is_counter).
    apply lookup_insert_eq.
  - exists 86400. split; [|reflexivity].
    rewrite lookup_insert_ne
      by (apply not_eq_sym, result_key_not_counter, failed_key_is_counter).
    apply lookup_insert_eq.
Qed.

End WorkerStored.

Section LoopTurn.
Context {cv : Cv2} {F : Float64}.
Variable detector : ApexDetector.
Variable json_loads : string -> res Worker.task_data.


Lemma brpop_reached q l x :
  inbox q = l ++ [x] -> up (faults (redis (world_of q))) 0 ->
  brpop q = (Ok (Some x), {| inbox := l; world_of := after_brpop q |}).
Proof.
  intros Hin Hup. unfold brpop, after_brpop, up in *. rewrite Hin.
  rewrite last_snoc, removelast_last.
  destruct (faults (redis (world_of q))) as [|[|] fs]; simpl in *;
    [reflexivity | discriminate | reflexivity].
Qed.


End LoopTurn.


(** X19: an entry that [brpop] hands out is gone from the list whatever
    follows.  If it does not decode, the exception is logged and neither
    the keys of the store nor the network are touched; if the store cannot
    be reached for the task's write and for the handler's, the exception is
    logged and no key is written, so the task is lost without a record; and
    if the turn ends with a record, this record is stored under the result
    key of the task the entry decodes to. *)
Theorem popped_entry_is_consumed {cv : Cv2} {F : Float64} (detector : ApexDetector)
  (json_loads : string -> res Worker.task_data) (now : datetime)
  (q : queued) (l : list string) (x : string) :
  inbox q = l ++ [x] ->
  up (faults (redis (world_of q))) 0 ->
  inbox (snd (main_turn detector json_loads now q)) = l
  /\ (forall e, json_loads x = Raise e ->
                main_turn detector json_loads now q
                = (Logged e, {| inbox := l; world_of := after_brpop q |}))
  /\ (forall td, json_loads x = Ok td ->
                 down (faults (redis (world_of q))) 1 ->
                 down (faults (redis (world_of q))) 2 ->
                 fst (main_turn detector json_loads now q) = Logged unreachable
                 /\ kv (redis (world_of (snd (main_turn detector json_loads now q))))
                    = kv (redis (world_of q)))
  /\ (forall td r, json_loads x = Ok td ->
                   fst (main_turn detector json_loads now q) = Handled r ->
                   TaskId r = Worker.task_id td
                   /\ exists ttl,
                       kv (redis (world_of (snd (main_turn detector json_loads now q))))
                         !! ("result:" ++ Worker.task_id td)%string
                       = Some (Json ttl r)).
Proof.
  intros Hin Hup.
  pose proof (brpop_reached q l x Hin Hup) as Hpop.
  split_and!.
  - rewrite main_turn_inbox, Hpop. reflexivity.
  - intros e He. unfold main_turn. rewrite Hpop, He. reflexivity.
  - intros td Htd Hd1 Hd2. unfold main_turn. rewrite Hpop, Htd. simpl.
    rewrite (worker_run_lost_failure detector td now (after_brpop q));
      [split; reflexivity | now apply down_tail | now apply down_tail].
  - intros td r Htd. unfold main_turn. rewrite Hpop, Htd. simpl.
    destruct (Worker.process_task detector td now (after_brpop q))
      as [[r'|e] w'] eqn:Hrun; simpl; [|discriminate].
    intros [= <-].
    destruct (worker_returned_stored detector td now (after_brpop q) r')
      as (ttl & Hkv & Hid); [now rewrite Hrun|].
    rewrite Hrun in Hkv. simpl in Hkv. split; [exact Hid | now exists ttl].
Qed.

Lemma popped_entry_is_consumed_witness :
  inbox (Fixtures.queue_of ["later"; "t1"]%string [false; true; true])
  = ["later"]%string ++ ["t1"]%string
  /\ inbox (snd (main_turn Sample.two_refs Fixtures.loads Sample.noon
                   (Fixtures.queue_of ["later"; "t1"]%string [false; true; true])))
     = ["later"]%string
  /\ fst (main_turn Sample.two_refs Fixtures.loads Sample.noon
            (Fixtures.queue_of ["later"; "t1"]%string [false; true; true]))
     = Logged unreachable.
Proof.
  split; [reflexivity |].
  pose proof (popped_entry_is_consumed Sample.two_refs Fixtures.loads Sample.noon
                (Fixtures.queue_of ["later"; "t1"]%string [false; true; true])
                ["later"]%string "t1"%string eq_refl eq_refl) as (Hin & _ & Hlost & _).
  split; [exact Hin |].
  exact (proj1 (Hlost Sample.four_task eq_refl eq_refl eq_refl)).
Defined.

(** ** The range of the similarity *)




(** ** What a run asks of the network *)

Section RunRequests.
Context {cv : Cv2} {F : Float64}.
Variable detector : ApexDetector.
Local Arguments String.append : simpl never.

Lemma worker_run_net td now w :
  net (snd (Worker.process_task detector td now w))
  = net_after (net w) (Worker.screenshot_urls td).
Proof.
  open_task.
  pose proof (process_screenshots_index detector
                (Worker.screenshot_urls td) (net w)) as Hidx.
  pose proof (process_multiple_screenshots_net detector
                (Worker.screenshot_urls td) (net w)) as Hnet.
  unfold process_screenshots in *.
  destruct (process_multiple_screenshots detector (Worker.screenshot_urls td) (net w))
    as [[m|] n']; simpl in *; subst n';
    [destruct (Hidx m eq_refl) as (k & Hk & _); rewrite Hk; simpl |];
    repeat next_store_call; reflexivity.
Qed.

Lemma video_run_net task_id clip_id urls now w :
  net (snd (Tasks.process_video_screenshots detector task_id clip_id urls now w))
  = net_after (net w) urls.
Proof.
  open_task.
  pose proof (process_screenshots_index detector urls (net w)) as Hidx.
  pose proof (process_multiple_screenshots_net detector urls (net w)) as Hnet.
  unfold process_screenshots in *.
  destruct (process_multiple_screenshots detector urls (net w))
    as [[m|] n']; simpl in *; subst n';
    [destruct (Hidx m eq_refl) as (k & Hk & _); rewrite Hk; simpl |];
    repeat next_store_call; reflexivity.
Qed.

End RunRequests.

(** X20: a run asks the network for the URLs of its task and for nothing
    else, each once and in the order of the list, whether images fail to
    download, no champion is found or the store cannot be reached; the
    handler sends no request of its own. *)
Theorem task_requests_each_url_once {cv : Cv2} {F : Float64} (detector : ApexDetector)
  (task_id clip_id : string) (urls : list string) (now : datetime) (w : world) :
  requests (net (snd (Tasks.process_video_screenshots detector task_id clip_id
                        urls now w)))
  = requests (net w) ++ urls
  /\ requests (net (snd (Worker.process_task detector
                           {| Worker.task_id := task_id; Worker.clip_id := clip_id;
                              Worker.screenshot_urls := urls |} now w)))
     = requests (net w) ++ urls.
Proof.
  rewrite video_run_net, worker_run_net. split; reflexivity.
Qed.

(** ** An empty queue *)

Section IdleLoop.
Context {cv : Cv2} {F : Float64}.
Variable detector : ApexDetector.
Variable json_loads : string -> res Worker.task_data.

Lemma main_turn_idle now q :
  inbox q = [] ->
  let out := main_turn detector json_loads now q in
  inbox (snd out) = []
  /\ kv (redis (world_of (snd out))) = kv (redis (world_of q))
  /\ net (world_of (snd out)) = net (world_of q)
  /\ faults (redis (world_of (snd out))) = tail (faults (redis (world_of q)))
  /\ (fst out = Idle \/ exists e, fst out = Logged e).
Proof.
  intros Hin. unfold main_turn, brpop. rewrite Hin.
  destruct (faults (redis (world_of q))) as [|[|] fs]; simpl;
    rewrite ?Hin; split_and!; eauto.
Qed.

End IdleLoop.

(** X21: while the list is empty the loop only polls.  Over any number
    of turns it handles no task, writes no key and sends no request; each
    turn is idle or logs the exception of a failed [brpop], and spends one
    call of the store. *)
Theorem empty_queue_only_polls {cv : Cv2} {F : Float64} (detector : ApexDetector)
  (json_loads : string -> res Worker.task_data) (clock : nat -> datetime)
  (n : nat) :
  forall (i : nat) (q : queued),
  inbox q = [] ->
  let out := main detector json_loads clock i n q in
  inbox (snd out) = []
  /\ kv (redis (world_of (snd out))) = kv (redis (world_of q))
  /\ net (world_of (snd out)) = net (world_of q)
  /\ faults (redis (world_of (snd out))) = drop n (faults (redis (world_of q)))
  /\ Forall (fun t => forall r, t <> Handled r) (fst out).
Proof.
  induction n as [|n IH]; intros i q Hin; simpl.
  - split_and!; auto.
  - pose proof (main_turn_idle detector json_loads (clock i) q Hin) as Ht.
    simpl in Ht.
    destruct (main_turn detector json_loads (clock i) q) as [t q1]. simpl in Ht.
    destruct Ht as (Hin1 & Hkv & Hnet & Hf & Ht).
    specialize (IH (S i) q1 Hin1). simpl in IH.
    destruct (main detector json_loads clock (S i) n q1) as [ts q2]. simpl in *.
    destruct IH as (Hin2 & Hkv2 & Hnet2 & Hf2 & Hts).
    split_and!; [assumption | congruence | congruence | |].
    + rewrite Hf2, Hf. destruct (faults (redis (world_of q))); simpl;
        [apply drop_nil | reflexivity].
    + constructor; [|assumption].
      destruct Ht as [-> | [e ->]]; discriminate.
Qed.

Lemma empty_queue_only_polls_witness :
  inbox (Fixtures.queue_of [] [true; false]) = []
  /\ Forall (fun t => forall r, t <> Handled r)
       (fst (main Sample.two_refs Fixtures.loads (fun _ => Sample.noon) 0 3
               (Fixtures.queue_of [] [true; false]))).
Proof.
  split; [reflexivity |].
  refine (proj2 (proj2 (proj2 (proj2
            (empty_queue_only_polls Sample.two_refs Fixtures.loads
               (fun _ => Sample.noon) 3 0%nat
               (Fixtures.queue_of [] [true; false]) _))))).
  reflexivity.
Defined.
